(** * LspController: the local semantic-index controller of Amazon Q

    A shallow embedding of
    [packages/core/src/amazonq/lsp/lspController.ts].

    The controller is asynchronous TypeScript.  Every method is embedded as
    a term of a small resumption monad [Async]: synchronous effects on the
    controller object, the logger and the telemetry sink are nodes of the
    term, and every [await] is a node at which the method is suspended until
    the awaited collaborator settles (fulfils or rejects).  [try], [catch]
    and [finally] are combinators on such terms.  Two semantics are given: a
    sequential one that runs one method to completion against an
    environment, and a task pool that interleaves several invocations at
    their suspension points, the way the single-threaded event loop does. *)

From Stdlib Require Import String Ascii List ZArith QArith Lia DecimalString.
From stdpp Require Import base decidable option list sorting strings gmap.

Local Open Scope list_scope.
Local Open Scope string_scope.

(** ** Values of the host language *)

(** What a [catch] clause can receive: an [Error] object with its [name]
    and [message], or any other value, kept by its string rendering. *)
Inductive Thrown : Type :=
| ErrorObj (name message : string)
| NonError (rendered : string).

(** [error instanceof Error ? error.name : 'Unknown'] *)
Definition errorNameOrUnknown (error : Thrown) : string :=
  match error with
  | ErrorObj name _ => name
  | NonError _ => "Unknown"
  end.

(** [error instanceof Error ? error.message : error], inside a template *)
Definition errorMessageOrSelf (error : Thrown) : string :=
  match error with
  | ErrorObj _ message => message
  | NonError rendered => rendered
  end.

(** A settled promise. *)
Inductive Settled (X : Type) : Type :=
| Fulfilled (x : X)
| Rejected (e : Thrown).
Arguments Fulfilled {X} x.
Arguments Rejected {X} e.

(** Truthiness of an optional string property: [undefined] and the empty
    string are falsy. *)
Definition truthy (o : option string) : bool :=
  match o with
  | Some s => negb (s =? EmptyString)
  | None => false
  end.

(** [o ? o : d] on an optional string property. *)
Definition orElse (o : option string) (d : string) : string :=
  match o with
  | Some s => if truthy o then s else d
  | None => d
  end.

(** Decimal rendering of a length inside a template literal. *)
Definition string_of_nat (n : nat) : string :=
  NilEmpty.string_of_uint (Nat.to_uint n).

(** ** The host process and Node's [path] module *)

Record Process : Type := {
  platform : string;
  arch : string
}.

(** [const nodeBinName = process.platform === 'win32' ? 'node.exe' : 'node'] *)
Definition nodeBinName (process : Process) : string :=
  if platform process =? "win32" then "node.exe" else "node".

Module NodePath.

Definition CHAR_FORWARD_SLASH : ascii := ascii_of_nat 47.
Definition CHAR_BACKWARD_SLASH : ascii := ascii_of_nat 92.
Definition CHAR_COLON : ascii := ascii_of_nat 58.

Definition isPosixPathSeparator (c : ascii) : bool :=
  Ascii.eqb c CHAR_FORWARD_SLASH.

Definition isPathSeparator (c : ascii) : bool :=
  Ascii.eqb c CHAR_FORWARD_SLASH || Ascii.eqb c CHAR_BACKWARD_SLASH.

Definition isWindowsDeviceRoot (c : ascii) : bool :=
  let n := nat_of_ascii c in
  ((65 <=? n)%nat && (n <=? 90)%nat) || ((97 <=? n)%nat && (n <=? 122)%nat).

(** The scanning loop of [basename] (no suffix argument):
    [for (i = path.length - 1; i >= lo; --i)], with the loop variables
    [start], [end] ([None] is [-1]) and [matchedSlash].  [n] counts the
    iterations left, so that [i = lo + n - 1]. *)
Fixpoint basename_loop (isSep : ascii -> bool) (path : string)
    (lo n : nat) (start : nat) (end_ : option nat) (matchedSlash : bool)
    : nat * option nat :=
  match n with
  | O => (start, end_)
  | S n' =>
      let i := (lo + n')%nat in
      match String.get i path with
      | None => (start, end_)
      | Some c =>
          if isSep c then
            if negb matchedSlash then (S i, end_)
            else basename_loop isSep path lo n' start end_ matchedSlash
          else
            match end_ with
            | None => basename_loop isSep path lo n' start (Some (S i)) false
            | Some _ => basename_loop isSep path lo n' start end_ matchedSlash
            end
      end
  end.

Definition basename_from (isSep : ascii -> bool) (path : string) (lo : nat)
    : string :=
  match basename_loop isSep path lo (String.length path - lo) lo None true with
  | (_, None) => EmptyString
  | (start, Some e) => String.substring start (e - start) path
  end.

(** [path.posix.basename(path)] *)
Definition posix_basename (path : string) : string :=
  basename_from isPosixPathSeparator path 0.

(** [path.win32.basename(path)]: a drive-letter prefix is skipped first. *)
Definition win32_basename (path : string) : string :=
  let lo :=
    match String.get 0 path, String.get 1 path with
    | Some c0, Some c1 =>
        if isWindowsDeviceRoot c0 && Ascii.eqb c1 CHAR_COLON then 2 else 0
    | _, _ => 0
    end%nat in
  basename_from isPathSeparator path lo.

(** [path.basename]: the module is [path.win32] on Windows hosts and
    [path.posix] on all others. *)
Definition basename (process : Process) (path : string) : string :=
  if platform process =? "win32" then win32_basename path
  else posix_basename path.

End NodePath.

(** ** Data model *)

Record Chunk : Type := {
  filePath : string;
  content : string;
  context : option string;
  relativePath : option string;
  programmingLanguage : option string
}.

Record ProgrammingLanguage : Type := { languageName : string }.

(** [RelevantTextDocument] of the streaming client, with the three
    properties the controller writes. *)
Record RelevantTextDocument : Type := {
  text : string;
  relativeFilePath : string;
  rtd_programmingLanguage : option ProgrammingLanguage
}.

Record BuildIndexConfig : Type := {
  startUrl : option string;
  maxIndexSize : Z;
  isVectorIndexEnabled : bool
}.

(** A workspace folder, by the [uri.fsPath] the controller reads. *)
Record WorkspaceFolder : Type := {
  folderName : string;
  uri_fsPath : string
}.

(** An entry returned by [collectFilesForIndex], by the two properties
    the controller reads. *)
Record CollectedFile : Type := {
  fileUri_fsPath : string;
  fileSizeBytes : Z
}.

Record Usage : Type := {
  memoryUsage : Q;
  cpuUsage : Q
}.

Inductive Result : Type := Succeeded | Failed.

(** The [amazonq_indexWorkspace] telemetry event.  A property the object
    literal does not write is [None]. *)
Record IndexWorkspaceEvent : Type := {
  duration : Q;
  result : Result;
  amazonqIndexFileCount : nat;
  amazonqIndexMemoryUsageInMB : option Q;
  amazonqIndexCpuUsagePercentage : option Q;
  amazonqIndexFileSizeInMB : Q;
  credentialStartUrl : option string;
  reason : option string;
  reasonDesc : option string
}.

Inductive LogLevel : Type := LogDebug | LogInfo | LogWarn | LogError.

(** The controller object. *)
Record LspController : Type := {
  _isIndexingInProgress : bool;
  serverPath : string;
  nodePath : string
}.

Definition withIndexing (b : bool) (this : LspController) : LspController :=
  {| _isIndexingInProgress := b;
     serverPath := serverPath this;
     nodePath := nodePath this |}.

(** ** Asynchronous methods as resumptions *)

(** Synchronous effects of a method on its surroundings. *)
Inductive Effect : Type :=
| SetIndexing (b : bool)                       (* this._isIndexingInProgress = b *)
| Log (topic : option string) (level : LogLevel) (message : string)
| Emit (event : IndexWorkspaceEvent).          (* telemetry.amazonq_indexWorkspace.emit *)

(** A method body over the collaborators [E]: [E X] is a call whose
    promise fulfils with an [X].  [Await] is the only suspension point. *)
Inductive Async (E : Type -> Type) (A : Type) : Type :=
| Ret (a : A)
| Throw (e : Thrown)
| Act (x : Effect) (k : Async E A)
| This (k : LspController -> Async E A)
| Now (k : Q -> Async E A)                     (* performance.now() *)
| Await {X : Type} (c : E X) (k : Settled X -> Async E A).
Arguments Ret {E A} a.
Arguments Throw {E A} e.
Arguments Act {E A} x k.
Arguments This {E A} k.
Arguments Now {E A} k.
Arguments Await {E A X} c k.

Fixpoint bind {E A B} (m : Async E A) (f : A -> Async E B) : Async E B :=
  match m with
  | Ret a => f a
  | Throw e => Throw e
  | Act x k => Act x (bind k f)
  | This k => This (fun this => bind (k this) f)
  | Now k => Now (fun t => bind (k t) f)
  | Await c k => Await c (fun r => bind (k r) f)
  end.

Declare Scope async_scope.
Delimit Scope async_scope with async.
Notation "x <- m ;; k" := (bind m (fun x => k))
  (at level 100, m at next level, right associativity) : async_scope.
Notation "m ;; k" := (bind m (fun _ => k))
  (at level 100, right associativity) : async_scope.
Local Open Scope async_scope.

(** [await c]: the value of a fulfilled promise, a throw for a rejected one. *)
Definition await {E X} (c : E X) : Async E X :=
  Await c (fun r => match r with Fulfilled x => Ret x | Rejected e => Throw e end).

Definition act {E} (x : Effect) : Async E unit := Act x (Ret tt).
Definition this {E} : Async E LspController := This (fun c => Ret c).
Definition performance_now {E} : Async E Q := Now (fun t => Ret t).
Definition getLogger {E} (level : LogLevel) (message : string) : Async E unit :=
  act (Log None level message).
Definition getLoggerFor {E} (topic : string) (level : LogLevel) (message : string)
    : Async E unit :=
  act (Log (Some topic) level message).
Definition emit {E} (event : IndexWorkspaceEvent) : Async E unit :=
  act (Emit event).

(** [try { body } catch (error) { handler error }] *)
Fixpoint try_catch {E A} (body : Async E A) (handler : Thrown -> Async E A)
    : Async E A :=
  match body with
  | Ret a => Ret a
  | Throw e => handler e
  | Act x k => Act x (try_catch k handler)
  | This k => This (fun this => try_catch (k this) handler)
  | Now k => Now (fun t => try_catch (k t) handler)
  | Await c k => Await c (fun r => try_catch (k r) handler)
  end.

(** [try { body } finally { fin }]: [fin] runs on both completions of
    [body]; a throw of [fin] replaces the completion of [body]. *)
Fixpoint try_finally {E A} (body : Async E A) (fin : Async E unit) : Async E A :=
  match body with
  | Ret a => fin ;; Ret a
  | Throw e => fin ;; Throw e
  | Act x k => Act x (try_finally k fin)
  | This k => This (fun this => try_finally (k this) fin)
  | Now k => Now (fun t => try_finally (k t) fin)
  | Await c k => Await c (fun r => try_finally (k r) fin)
  end.

(** ** Collaborators *)

Inductive Target : Type := bm25 | codemap | default_target.

(** [LspClient.instance] and [collectFilesForIndex].  The response of the
    child build call is kept by its truthiness, the one thing [buildIndex]
    reads of it, and the repo map by its rendering in a template. *)
Inductive LspE : Type -> Type :=
| QueryVectorIndex (s : string) : LspE (option (list Chunk))
| QueryInlineProjectContext (query path : string) (target : Target)
    : LspE (list string)
| CollectFilesForIndex (projPaths : list string)
    (workspaceFolders : option (list WorkspaceFolder))
    (respectGitIgnore : bool) (maxSize : Z) : LspE (list CollectedFile)
| ClientBuildIndex (paths : list string) (rootPath : option string)
    (config : string) : LspE bool
| GetLspServerUsage : LspE (option Usage)
| GetRepoMapJSON : LspE string.

(** [fs.exists], [tryRemoveFolder], [fs.delete]. *)
Inductive FsE : Type -> Type :=
| FsExists (path : string) : FsE bool
| TryRemoveFolder (folder : string) : FsE bool
| FsDelete (path : string) : FsE unit.

(** The argument object of [downloadAndExtractServer]. *)
Record DownloadArgs (Content : Type) : Type := {
  dl_content : Content;
  installLocation : string;
  dl_name : string;
  dl_tempFolder : string;
  extractToTempFolder : bool
}.
Arguments dl_content {Content} _.
Arguments installLocation {Content} _.
Arguments dl_name {Content} _.
Arguments dl_tempFolder {Content} _.
Arguments extractToTempFolder {Content} _.

(** [makeTemporaryToolkitFolder] and the two inherited [LspDownloader]
    operations that fetch and place the artifacts. *)
Inductive DownloadE (Content : Type) : Type -> Type :=
| MakeTemporaryToolkitFolder : DownloadE Content string
| DownloadAndExtractServer (args : DownloadArgs Content) : DownloadE Content unit
| InstallRuntime (runtime : Content) (nodePath tempPath : string)
    : DownloadE Content unit.
Arguments MakeTemporaryToolkitFolder {Content}.
Arguments DownloadAndExtractServer {Content} args.
Arguments InstallRuntime {Content} runtime nodePath tempPath.

Inductive sumE (E F : Type -> Type) (X : Type) : Type :=
| inl1 (e : E X)
| inr1 (f : F X).
Arguments inl1 {E F X} e.
Arguments inr1 {E F X} f.
Infix "+'" := sumE (at level 50, left associativity) : type_scope.

(** ** The methods of [LspController] *)

(** [isIndexingInProgress()] *)
Definition isIndexingInProgress {E} : Async E bool :=
  c <- this ;; Ret (_isIndexingInProgress c).

(** The object [query] pushes for one chunk.  In the first branch
    [chunk.programmingLanguage] is a string, the test having narrowed it. *)
Definition pushed (process : Process) (chunk : Chunk) : RelevantTextDocument :=
  let text := orElse (context chunk) (content chunk) in
  if truthy (programmingLanguage chunk)
     && negb (default EmptyString (programmingLanguage chunk) =? "unknown")
  then
    {| text := text;
       relativeFilePath :=
         orElse (relativePath chunk) (NodePath.basename process (filePath chunk));
       rtd_programmingLanguage :=
         Some {| languageName := default EmptyString (programmingLanguage chunk) |} |}
  else
    {| text := text;
       relativeFilePath :=
         orElse (relativePath chunk) (NodePath.basename process (filePath chunk));
       rtd_programmingLanguage := None |}.

(** [chunks?.forEach((chunk) => { ... resp.push(...) })] *)
Definition forEach_push (process : Process) (chunks : option (list Chunk))
    (resp : list RelevantTextDocument) : list RelevantTextDocument :=
  match chunks with
  | None => resp
  | Some chunks =>
      fold_left (fun resp chunk => (resp ++ [pushed process chunk])%list) chunks resp
  end.

Definition query (process : Process) (s : string)
    : Async LspE (list RelevantTextDocument) :=
  chunks <- await (QueryVectorIndex s) ;;
  let resp := [] in
  let resp := forEach_push process chunks resp in
  Ret resp.

Definition queryInlineProjectContext (query path : string) (target : Target)
    : Async LspE (list string) :=
  try_catch
    (await (QueryInlineProjectContext query path target))
    (fun e =>
       match e with
       | ErrorObj _ message =>
           getLogger LogError
             ("unexpected error while querying inline project context, e="
              ++ message)
       | NonError _ => Ret tt
       end ;;
       Ret []).

(** [files.reduce((accumulator, currentFile) =>
       accumulator + currentFile.fileSizeBytes, 0)].  Sizes are whole
    numbers of bytes; the sum of doubles the code computes is this sum as
    long as it stays within 2^53. *)
Definition totalSize (files : list CollectedFile) : Z :=
  fold_left (fun accumulator currentFile =>
               (accumulator + fileSizeBytes currentFile)%Z) files 0%Z.

Definition MB : Q := (1024 * 1024)%Q.

(** The three clauses of the [try] statement of [buildIndex]. *)
Definition buildIndex_try (start : Q) (projPaths : list string)
    (workspaceFolders : option (list WorkspaceFolder))
    (buildIndexConfig : BuildIndexConfig) : Async LspE unit :=
  act (SetIndexing true) ;;
  let projRoot := head projPaths in
  files <- await (CollectFilesForIndex projPaths workspaceFolders true
                    (maxIndexSize buildIndexConfig * 1024 * 1024)%Z) ;;
  let totalSizeBytes := totalSize files in
  getLogger LogInfo
    ("LspController: Found " ++ string_of_nat (length files)
     ++ " files in current project " ++ String.concat "," projPaths) ;;
  let config :=
    if isVectorIndexEnabled buildIndexConfig then "all" else "default" in
  let r := map fileUri_fsPath files in
  resp <- await (ClientBuildIndex r projRoot config) ;;
  if resp : bool then
    getLogger LogDebug "LspController: Finish building index of project" ;;
    usage <- await GetLspServerUsage ;;
    t <- performance_now ;;
    emit {| duration := (t - start)%Q;
            result := Succeeded;
            amazonqIndexFileCount := length files;
            amazonqIndexMemoryUsageInMB :=
              option_map (fun u => (memoryUsage u / MB)%Q) usage;
            amazonqIndexCpuUsagePercentage := option_map cpuUsage usage;
            amazonqIndexFileSizeInMB := (inject_Z totalSizeBytes / MB)%Q;
            credentialStartUrl := startUrl buildIndexConfig;
            reason := None;
            reasonDesc := None |}
  else
    getLogger LogError "LspController: Failed to build index of project" ;;
    t <- performance_now ;;
    emit {| duration := (t - start)%Q;
            result := Failed;
            amazonqIndexFileCount := 0;
            amazonqIndexMemoryUsageInMB := None;
            amazonqIndexCpuUsagePercentage := None;
            amazonqIndexFileSizeInMB := 0%Q;
            credentialStartUrl := None;
            reason := Some "Unknown";
            reasonDesc := None |}.

(** The event the [catch] clause emits. *)
Definition failure_event (elapsed : Q) (error : Thrown) : IndexWorkspaceEvent :=
  {| duration := elapsed;
     result := Failed;
     amazonqIndexFileCount := 0;
     amazonqIndexMemoryUsageInMB := None;
     amazonqIndexCpuUsagePercentage := None;
     amazonqIndexFileSizeInMB := 0%Q;
     credentialStartUrl := None;
     reason := Some (errorNameOrUnknown error);
     reasonDesc :=
       Some ("Error when building index. " ++ errorMessageOrSelf error) |}.

Definition buildIndex_catch (start : Q) (error : Thrown) : Async LspE unit :=
  getLogger LogError "LspController: Failed to build index of project" ;;
  t <- performance_now ;;
  emit (failure_event (t - start)%Q error).

Definition buildIndex_finally : Async LspE unit :=
  act (SetIndexing false) ;;
  repomapFile <- await GetRepoMapJSON ;;
  getLogger LogInfo ("File path " ++ repomapFile).

(** [projPaths.sort()]: the default order of [Array.prototype.sort] on
    strings, code unit by code unit (a string is taken as its sequence of
    code units, each below 256). *)
Definition sort_paths (projPaths : list string) : list string :=
  merge_sort String.le projPaths.
Arguments sort_paths : simpl never.

(** [buildIndex].  [workspaceFolders] is [vscode.workspace.workspaceFolders],
    read twice in the first synchronous stretch of the method. *)
Definition buildIndex (workspaceFolders : option (list WorkspaceFolder))
    (buildIndexConfig : BuildIndexConfig) : Async LspE unit :=
  getLogger LogInfo "LspController: Starting to build index of project" ;;
  start <- performance_now ;;
  let projPaths := map uri_fsPath (default [] workspaceFolders) in
  if (length projPaths =? 0)%nat then
    getLogger LogInfo
      "LspController: Skipping building index. No projects found in workspace" ;;
    Ret tt
  else
    let projPaths := sort_paths projPaths in
    try_finally
      (try_catch
         (buildIndex_try start projPaths workspaceFolders buildIndexConfig)
         (buildIndex_catch start))
      buildIndex_finally.

(** [isLspInstalled]: [&&] awaits its right operand only when the left
    one is true. *)
Definition isLspInstalled : Async FsE bool :=
  c <- this ;;
  a <- await (FsExists (serverPath c)) ;;
  if a : bool then await (FsExists (nodePath c)) else Ret false.

Definition cleanup : Async FsE bool :=
  c <- this ;;
  a <- await (FsExists (serverPath c)) ;;
  (if a : bool then _ <- await (TryRemoveFolder (serverPath c)) ;; Ret tt
   else Ret tt) ;;
  c <- this ;;
  b <- await (FsExists (nodePath c)) ;;
  (if b : bool then await (FsDelete (nodePath c)) else Ret tt) ;;
  Ret true.

Section Install.

(** [Manifest], [Content] and [getDependency] belong to [LspDownloader]
    ([shared/fetchLsp]); [join] is [path.join]. *)
Context {Manifest Content : Type}.
Variable getDependency : Manifest -> string -> option Content.
Variable join : string -> string -> string.
Variable process : Process.

(** [install].  The local [tempFolder] is [undefined] until
    [makeTemporaryToolkitFolder] has fulfilled: when that call rejects,
    the [finally] clause finds it falsy and removes nothing. *)
Definition install (manifest : Manifest)
    : Async (FsE +' DownloadE Content) bool :=
  let server := getDependency manifest "qserver" in
  let runtime := getDependency manifest "node" in
  match server, runtime with
  | Some server, Some runtime =>
      c <- this ;;
      made <- Await (inr1 MakeTemporaryToolkitFolder) Ret ;;
      match made with
      | Rejected e => Throw e
      | Fulfilled tempFolder =>
          try_finally
            (await (inr1 (DownloadAndExtractServer
                            {| dl_content := server;
                               installLocation := serverPath c;
                               dl_name := "qserver";
                               dl_tempFolder := tempFolder;
                               extractToTempFolder := true |})) ;;
             let runtimeTempPath := join tempFolder (nodeBinName process) in
             await (inr1 (InstallRuntime runtime (nodePath c) runtimeTempPath)))
            (if truthy (Some tempFolder)
             then _ <- await (inl1 (TryRemoveFolder tempFolder)) ;; Ret tt
             else Ret tt)
      end ;;
      Ret true
  | _, _ =>
      getLoggerFor "lsp" LogInfo
        ("Did not find LSP URL for " ++ platform process ++ " "
         ++ arch process) ;;
      Ret false
  end.

End Install.

(** ** Semantics *)

(** What an onlooker can see of an execution.  [Awaiting b c]: the method
    is suspended on the call [c] while [isIndexingInProgress()] answers [b]. *)
Inductive Obs (E : Type -> Type) : Type :=
| Invoked (indexing : bool)
| Did (x : Effect)
| Awaiting (indexing : bool) {X : Type} (c : E X)
| Completed (fulfilled : bool).
Arguments Invoked {E} indexing.
Arguments Did {E} x.
Arguments Awaiting {E} indexing {X} c.
Arguments Completed {E} fulfilled.

(** Journal entries carry the number of the invocation they belong to. *)
Record World (E : Type -> Type) (Env : Type) : Type := {
  controller : LspController;
  journal : list (nat * Obs E);
  env : Env
}.
Arguments controller {E Env} _.
Arguments journal {E Env} _.
Arguments env {E Env} _.

(** The surroundings: how a call settles and what the clock shows. *)
Record Host (E : Type -> Type) (Env : Type) : Type := {
  settle : forall X, E X -> Env -> Env * Settled X;
  clock : Env -> Env * Q
}.
Arguments settle {E Env} _ {X} _ _.
Arguments clock {E Env} _ _.

(** What is left of an invocation at a suspension point. *)
Inductive Susp (E : Type -> Type) (A : Type) : Type :=
| Finished (r : Settled A)
| Blocked {X : Type} (c : E X) (k : Settled X -> Async E A).
Arguments Finished {E A} r.
Arguments Blocked {E A X} c k.

Section Semantics.

Context {E : Type -> Type} {Env : Type}.
Variable host : Host E Env.

Definition note (tid : nat) (o : Obs E) (w : World E Env) : World E Env :=
  {| controller := controller w;
     journal := (journal w ++ [(tid, o)])%list;
     env := env w |}.

Definition withEnv (e : Env) (w : World E Env) : World E Env :=
  {| controller := controller w; journal := journal w; env := e |}.

Definition perform (tid : nat) (x : Effect) (w : World E Env) : World E Env :=
  match x with
  | SetIndexing b =>
      {| controller := withIndexing b (controller w);
         journal := (journal w ++ [(tid, Did x)])%list;
         env := env w |}
  | Log _ _ _ | Emit _ => note tid (Did x) w
  end.

(** One invocation run to completion, nothing else interleaved. *)
Fixpoint run {A} (tid : nat) (p : Async E A) (w : World E Env)
    : World E Env * Settled A :=
  match p with
  | Ret a => (w, Fulfilled a)
  | Throw e => (w, Rejected e)
  | Act x k => run tid k (perform tid x w)
  | This k => run tid (k (controller w)) w
  | Now k => let (e', t) := clock host (env w) in run tid (k t) (withEnv e' w)
  | Await c k =>
      let w1 := note tid (Awaiting (_isIndexingInProgress (controller w)) c) w in
      let (e', r) := settle host c (env w1) in
      run tid (k r) (withEnv e' w1)
  end.

(** One synchronous stretch: up to the next [await] or to the end. *)
Fixpoint advance {A} (tid : nat) (p : Async E A) (w : World E Env)
    : World E Env * Susp E A :=
  match p with
  | Ret a => (w, Finished (Fulfilled a))
  | Throw e => (w, Finished (Rejected e))
  | Act x k => advance tid k (perform tid x w)
  | This k => advance tid (k (controller w)) w
  | Now k => let (e', t) := clock host (env w) in advance tid (k t) (withEnv e' w)
  | Await c k =>
      (note tid (Awaiting (_isIndexingInProgress (controller w)) c) w,
       Blocked c k)
  end.

(** The event loop: invocations of [void] methods, interleaved at their
    suspension points. *)
Record Pool : Type := {
  tasks : list (Susp E unit);
  world : World E Env
}.

Inductive Sched : Type :=
| Invoke (p : Async E unit)
| Resume (tid : nat).

Definition is_fulfilled {A} (r : Settled A) : bool :=
  match r with Fulfilled _ => true | Rejected _ => false end.

Definition landed (tid : nat) (ws : World E Env * Susp E unit)
    : World E Env * Susp E unit :=
  match snd ws with
  | Finished r => (note tid (Completed (is_fulfilled r)) (fst ws), snd ws)
  | Blocked _ _ => ws
  end.

Definition sched_step (pool : Pool) (s : Sched) : Pool :=
  match s with
  | Invoke p =>
      let tid := length (tasks pool) in
      let w := world pool in
      let w0 := note tid (Invoked (_isIndexingInProgress (controller w))) w in
      let (w', t) := landed tid (advance tid p w0) in
      {| tasks := (tasks pool ++ [t])%list; world := w' |}
  | Resume tid =>
      match tasks pool !! tid with
      | Some (Blocked c k) =>
          let w := world pool in
          let (e', r) := settle host c (env w) in
          let (w', t) := landed tid (advance tid (k r) (withEnv e' w)) in
          {| tasks := <[tid := t]> (tasks pool); world := w' |}
      | _ => pool
      end
  end.

Definition exec (schedule : list Sched) (pool : Pool) : Pool :=
  fold_left sched_step schedule pool.

End Semantics.

Definition idle {E Env} (c : LspController) (e : Env) : World E Env :=
  {| controller := c; journal := []; env := e |}.

(** *** Reading a journal *)

Definition is_awaiting {E} (o : Obs E) : bool :=
  match o with Awaiting _ _ => true | _ => false end.

Definition is_completed {E} (o : Obs E) : bool :=
  match o with Completed _ => true | _ => false end.

Definition invoked_while {E} (b : bool) (o : Obs E) : bool :=
  match o with Invoked b' => Bool.eqb b b' | _ => false end.

(** The flag seen at each suspension of invocation [tid], in order. *)
Fixpoint flags_at_awaits {E} (tid : nat) (j : list (nat * Obs E)) : list bool :=
  match j with
  | [] => []
  | (t, Awaiting b _) :: j' =>
      if (t =? tid)%nat then b :: flags_at_awaits tid j' else flags_at_awaits tid j'
  | _ :: j' => flags_at_awaits tid j'
  end.

(** The effects of invocation [tid], in order. *)
Fixpoint effects_of {E} (tid : nat) (j : list (nat * Obs E)) : list Effect :=
  match j with
  | [] => []
  | (t, Did x) :: j' =>
      if (t =? tid)%nat then x :: effects_of tid j' else effects_of tid j'
  | _ :: j' => effects_of tid j'
  end.

(** The journal up to the completion of invocation [tid]. *)
Fixpoint until_completed {E} (tid : nat) (j : list (nat * Obs E))
    : list (nat * Obs E) :=
  match j with
  | [] => []
  | (t, o) :: j' =>
      if (t =? tid)%nat && is_completed o then []
      else (t, o) :: until_completed tid j'
  end.

(** Invocation [tid] was turned away: it never reached a collaborator. *)
Definition rejected {E} (tid : nat) (j : list (nat * Obs E)) : bool :=
  forallb (fun to => negb ((fst to =? tid)%nat && is_awaiting (snd to))) j.

(** Invocation [later] was held back until [earlier] had completed. *)
Definition serialized {E} (earlier later : nat) (j : list (nat * Obs E)) : bool :=
  rejected later (until_completed earlier j).

(** Invocation [tid] was made while the flag was up. *)
Definition invoked_while_indexing {E} (tid : nat) (j : list (nat * Obs E)) : bool :=
  existsb (fun to => (fst to =? tid)%nat && invoked_while true (snd to)) j.

(** Builds exclude each other: an invocation made while the flag is up is
    turned away, or held back behind every invocation made before it
    (invocations are numbered in the order they are made). *)
Definition builds_exclusive {E} (j : list (nat * Obs E)) : Prop :=
  forall earlier later : nat,
    (earlier < later)%nat ->
    invoked_while_indexing later j = true ->
    rejected later j = true \/ serialized earlier later j = true.

(** ** Environments *)

(** *** A scripted language-server client

    Every operation of the client and of the file collector settles the
    way the script says; the clock advances by one at each settlement. *)
Record LspScript : Type := {
  onQueryVectorIndex : Settled (option (list Chunk));
  onQueryInline : Settled (list string);
  onCollect : Settled (list CollectedFile);
  onBuildIndex : Settled bool;
  onUsage : Settled (option Usage);
  onRepoMap : Settled string;
  ticks : Q
}.

Definition tick (s : LspScript) : LspScript :=
  {| onQueryVectorIndex := onQueryVectorIndex s;
     onQueryInline := onQueryInline s;
     onCollect := onCollect s;
     onBuildIndex := onBuildIndex s;
     onUsage := onUsage s;
     onRepoMap := onRepoMap s;
     ticks := (ticks s + 1)%Q |}.

Definition scripted_settle (X : Type) (c : LspE X) (s : LspScript)
    : LspScript * Settled X :=
  (tick s,
   match c in LspE X return Settled X with
   | QueryVectorIndex _ => onQueryVectorIndex s
   | QueryInlineProjectContext _ _ _ => onQueryInline s
   | CollectFilesForIndex _ _ _ _ => onCollect s
   | ClientBuildIndex _ _ _ => onBuildIndex s
   | GetLspServerUsage => onUsage s
   | GetRepoMapJSON => onRepoMap s
   end).

Definition scripted : Host LspE LspScript :=
  {| settle := scripted_settle; clock := fun s => (s, ticks s) |}.

(** *** A file system

    Modelled from the spec: [fs.exists], [tryRemoveFolder] and [fs.delete]
    live in [shared/fs/fs] and [shared/filesystemUtilities].  The disk is
    the set of paths that exist.  [fs.exists] answers membership;
    [tryRemoveFolder] removes the folder and everything beneath it and
    fulfils with [true] (removal of the installed server directory);
    [fs.delete] removes the one path, and rejects when the path does not
    exist. *)
Definition beneath (folder path : string) : bool :=
  (path =? folder) || String.prefix (folder ++ "/") path.

Definition removeFolder (folder : string) (disk : gset string) : gset string :=
  filter (fun path => beneath folder path = false) disk.

Definition ENOENT (path : string) : Thrown :=
  ErrorObj "FileNotFound" ("ENOENT: no such file or directory, " ++ path).

Definition fs_settle (X : Type) (c : FsE X) (disk : gset string)
    : gset string * Settled X :=
  match c in FsE X return gset string * Settled X with
  | FsExists path => (disk, Fulfilled (bool_decide (path ∈ disk)))
  | TryRemoveFolder folder => (removeFolder folder disk, Fulfilled true)
  | FsDelete path =>
      if bool_decide (path ∈ disk)
      then (disk ∖ {[path]}, Fulfilled tt)
      else (disk, Rejected (ENOENT path))
  end.

Definition disk_host : Host FsE (gset string) :=
  {| settle := fs_settle; clock := fun disk => (disk, 0%Q) |}.

(** *** A manifest

    Modelled from the spec: [Manifest], [Content] and [getDependency] are
    declared in [shared/fetchLsp].  A manifest enumerates per-platform and
    per-architecture dependency entries; an entry is resolved by its name
    ([qserver], [node]), the platform and architecture of the host and a
    pinned set of supported server versions. *)
Record ManifestEntry : Type := {
  entryName : string;
  entryVersion : string;
  entryPlatform : string;
  entryArch : string;
  entryUrl : string
}.

Definition supportedLspServerVersions : list string := ["0.1.32"].

Definition entry_matches (process : Process) (name : string) (e : ManifestEntry)
    : bool :=
  (entryName e =? name)
  && existsb (String.eqb (entryVersion e)) supportedLspServerVersions
  && (entryPlatform e =? platform process)
  && (entryArch e =? arch process).

Definition resolveDependency (process : Process) (manifest : list ManifestEntry)
    (name : string) : option ManifestEntry :=
  find (entry_matches process name) manifest.

(** *** An artifact fetcher

    Modelled from the spec: [makeTemporaryToolkitFolder],
    [downloadAndExtractServer] and [installRuntime] live in
    [shared/filesystemUtilities] and [shared/fetchLsp].  The download goes
    to a temporary scratch location, the server is installed into the final
    server path and the runtime binary into its own path. *)
Definition scratch : string := "/tmp/aws-toolkit-vscode/vsctk0".

Definition fetch_settle {Content : Type} (X : Type) (d : DownloadE Content X)
    (disk : gset string) : gset string * Settled X :=
  match d in DownloadE _ X return gset string * Settled X with
  | MakeTemporaryToolkitFolder => ({[ scratch ]} ∪ disk, Fulfilled scratch)
  | DownloadAndExtractServer args =>
      ({[ installLocation args ]} ∪ disk, Fulfilled tt)
  | InstallRuntime _ nodePath _ => ({[ nodePath ]} ∪ disk, Fulfilled tt)
  end.

Definition installer_settle {Content : Type} (X : Type)
    (c : (FsE +' DownloadE Content) X) (disk : gset string)
    : gset string * Settled X :=
  match c with
  | inl1 f => fs_settle X f disk
  | inr1 d => fetch_settle X d disk
  end.

Definition installer_host {Content : Type}
    : Host (FsE +' DownloadE Content) (gset string) :=
  {| settle := installer_settle; clock := fun disk => (disk, 0%Q) |}.

(** [path.join] of a folder and a file name on a POSIX host, for a folder
    that is normalised and does not end in a separator (the one case in
    which [path.join] is this concatenation). *)
Definition join_segments (folder name : string) : string :=
  folder ++ "/" ++ name.

(** *** One cleanup against a disk *)

Definition cleanup_alone (tid : nat) (c : LspController) (disk : gset string)
    : World FsE (gset string) * Settled bool :=
  run disk_host tid cleanup (idle c disk).

Definition after_cleanup (tid : nat) (c : LspController) (disk : gset string)
    : gset string :=
  env (fst (cleanup_alone tid c disk)).

(** *** One build against its surroundings *)

(** An invocation of [buildIndex] run alone, from a controller [c] and
    surroundings [e], with an empty journal. *)
Definition build_alone {Env} (host : Host LspE Env) (tid : nat)
    (folders : option (list WorkspaceFolder)) (cfg : BuildIndexConfig)
    (c : LspController) (e : Env) : World LspE Env * Settled unit :=
  run host tid (buildIndex folders cfg) (idle c e).

(** The error thrown during file collection or by the child build call of
    a build started in surroundings [e], if there is one, with the clock
    reading taken at the start and the surroundings left by the call that
    threw. *)
Definition thrown_in_build {Env} (host : Host LspE Env)
    (folders : option (list WorkspaceFolder)) (cfg : BuildIndexConfig)
    (e : Env) : option (Q * Thrown * Env) :=
  let projPaths := sort_paths (map uri_fsPath (default [] folders)) in
  let (e1, start) := clock host e in
  match settle host (CollectFilesForIndex projPaths folders true
                       (maxIndexSize cfg * 1024 * 1024)%Z) e1 with
  | (e2, Rejected error) => Some (start, error, e2)
  | (e2, Fulfilled files) =>
      match settle host (ClientBuildIndex (map fileUri_fsPath files)
                           (head projPaths)
                           (if isVectorIndexEnabled cfg then "all" else "default"))
              e2 with
      | (e3, Rejected error) => Some (start, error, e3)
      | (_, Fulfilled _) => None
      end
  end.

(** Whether the file collection of a build started in surroundings [e]
    fulfils. *)
Definition collection_fulfils {Env} (host : Host LspE Env)
    (folders : option (list WorkspaceFolder)) (cfg : BuildIndexConfig)
    (e : Env) : bool :=
  let projPaths := sort_paths (map uri_fsPath (default [] folders)) in
  let (e1, _) := clock host e in
  match settle host (CollectFilesForIndex projPaths folders true
                       (maxIndexSize cfg * 1024 * 1024)%Z) e1 with
  | (_, Fulfilled _) => true
  | (_, Rejected _) => false
  end.

(** Whether the child build call of a build started in surroundings [e]
    is made and answers true. *)
Definition build_answers_true {Env} (host : Host LspE Env)
    (folders : option (list WorkspaceFolder)) (cfg : BuildIndexConfig)
    (e : Env) : bool :=
  let projPaths := sort_paths (map uri_fsPath (default [] folders)) in
  let (e1, _) := clock host e in
  match settle host (CollectFilesForIndex projPaths folders true
                       (maxIndexSize cfg * 1024 * 1024)%Z) e1 with
  | (e2, Fulfilled files) =>
      match settle host (ClientBuildIndex (map fileUri_fsPath files)
                           (head projPaths)
                           (if isVectorIndexEnabled cfg then "all" else "default"))
              e2 with
      | (_, Fulfilled true) => true
      | _ => false
      end
  | (_, Rejected _) => false
  end.

(** The [rootPath] arguments of the child build calls in a journal. *)
Fixpoint rootPaths_requested (j : list (nat * Obs LspE)) : list (option string) :=
  match j with
  | [] => []
  | (_, Awaiting _ c) :: j' =>
      match c with
      | ClientBuildIndex _ rootPath _ => rootPath :: rootPaths_requested j'
      | _ => rootPaths_requested j'
      end
  | _ :: j' => rootPaths_requested j'
  end.

(** The writes to the flag among a list of effects. *)
Fixpoint flag_writes (xs : list Effect) : list bool :=
  match xs with
  | [] => []
  | SetIndexing b :: xs' => b :: flag_writes xs'
  | _ :: xs' => flag_writes xs'
  end.

(** ** Further readings of a journal *)

(** The telemetry events among a list of effects. *)
Fixpoint events_of (xs : list Effect) : list IndexWorkspaceEvent :=
  match xs with
  | [] => []
  | Emit event :: xs' => event :: events_of xs'
  | _ :: xs' => events_of xs'
  end.

(** The log lines among a list of effects. *)
Fixpoint logs_of (xs : list Effect) : list (LogLevel * string) :=
  match xs with
  | [] => []
  | Log _ level message :: xs' => (level, message) :: logs_of xs'
  | _ :: xs' => logs_of xs'
  end.

(** The operations of [LspE], without their arguments. *)
Inductive LspCall : Type :=
| CallQueryVectorIndex
| CallQueryInline
| CallCollect
| CallBuildIndex
| CallUsage
| CallRepoMap.

Definition lsp_call {X} (c : LspE X) : LspCall :=
  match c with
  | QueryVectorIndex _ => CallQueryVectorIndex
  | QueryInlineProjectContext _ _ _ => CallQueryInline
  | CollectFilesForIndex _ _ _ _ => CallCollect
  | ClientBuildIndex _ _ _ => CallBuildIndex
  | GetLspServerUsage => CallUsage
  | GetRepoMapJSON => CallRepoMap
  end.

(** The calls of invocation [tid] to the client and the collector, in
    order. *)
Fixpoint lsp_calls (tid : nat) (j : list (nat * Obs LspE)) : list LspCall :=
  match j with
  | [] => []
  | (t, Awaiting _ c) :: j' =>
      if (t =? tid)%nat then lsp_call c :: lsp_calls tid j' else lsp_calls tid j'
  | _ :: j' => lsp_calls tid j'
  end.

(** The child build calls in a journal, with their arguments. *)
Fixpoint build_requests (j : list (nat * Obs LspE))
    : list (list string * option string * string) :=
  match j with
  | [] => []
  | (_, Awaiting _ c) :: j' =>
      match c with
      | ClientBuildIndex paths rootPath config =>
          (paths, rootPath, config) :: build_requests j'
      | _ => build_requests j'
      end
  | _ :: j' => build_requests j'
  end.

(** The file collections in a journal, with the two arguments that vary. *)
Fixpoint collect_requests (j : list (nat * Obs LspE)) : list (bool * Z) :=
  match j with
  | [] => []
  | (_, Awaiting _ c) :: j' =>
      match c with
      | CollectFilesForIndex _ _ respectGitIgnore maxSize =>
          (respectGitIgnore, maxSize) :: collect_requests j'
      | _ => collect_requests j'
      end
  | _ :: j' => collect_requests j'
  end.

(** The paths asked of the file system, in order. *)
Inductive FsCall : Type :=
| AskedExists (path : string)
| AskedRemoveFolder (folder : string)
| AskedDelete (path : string).

Definition fs_call {X} (c : FsE X) : FsCall :=
  match c with
  | FsExists path => AskedExists path
  | TryRemoveFolder folder => AskedRemoveFolder folder
  | FsDelete path => AskedDelete path
  end.

Fixpoint fs_calls (j : list (nat * Obs FsE)) : list FsCall :=
  match j with
  | [] => []
  | (_, Awaiting _ c) :: j' => fs_call c :: fs_calls j'
  | _ :: j' => fs_calls j'
  end.

(** The steps of an installation, by the arguments that identify them. *)
Inductive InstallStep : Type :=
| StepMakeTemp
| StepDownload (name installLocation tempFolder : string) (toTemp : bool)
| StepInstallRuntime (nodePath tempPath : string)
| StepFs (call : FsCall).

Definition install_step {Content X} (c : (FsE +' DownloadE Content) X)
    : InstallStep :=
  match c with
  | inl1 f => StepFs (fs_call f)
  | inr1 d =>
      match d with
      | MakeTemporaryToolkitFolder => StepMakeTemp
      | DownloadAndExtractServer args =>
          StepDownload (dl_name args) (installLocation args)
            (dl_tempFolder args) (extractToTempFolder args)
      | InstallRuntime _ nodePath tempPath => StepInstallRuntime nodePath tempPath
      end
  end.

Fixpoint install_steps {Content}
    (j : list (nat * Obs (FsE +' DownloadE Content))) : list InstallStep :=
  match j with
  | [] => []
  | (_, Awaiting _ c) :: j' => install_step c :: install_steps j'
  | _ :: j' => install_steps j'
  end.

(** ** Writes to the flag along a method body *)

(** [quiet_flag p]: no path through [p] writes the flag. *)
Inductive quiet_flag {E A} : Async E A -> Prop :=
| quiet_ret a : quiet_flag (Ret a)
| quiet_throw e : quiet_flag (Throw e)
| quiet_log topic level message k :
    quiet_flag k -> quiet_flag (Act (Log topic level message) k)
| quiet_emit event k : quiet_flag k -> quiet_flag (Act (Emit event) k)
| quiet_this k : (forall c, quiet_flag (k c)) -> quiet_flag (This k)
| quiet_now k : (forall t, quiet_flag (k t)) -> quiet_flag (Now k)
| quiet_await X (c : E X) k :
    (forall r, quiet_flag (k r)) -> quiet_flag (Await c k).

(** [lowers_flag p]: every path through [p] writes the flag, and the last
    write on it is [false]. *)
Inductive lowers_flag {E A} : Async E A -> Prop :=
| lowers_here k : quiet_flag k -> lowers_flag (Act (SetIndexing false) k)
| lowers_act x k : lowers_flag k -> lowers_flag (Act x k)
| lowers_this k : (forall c, lowers_flag (k c)) -> lowers_flag (This k)
| lowers_now k : (forall t, lowers_flag (k t)) -> lowers_flag (Now k)
| lowers_await X (c : E X) k :
    (forall r, lowers_flag (k r)) -> lowers_flag (Await c k).

(** A suspended invocation that has its lowering of the flag ahead. *)
Definition before_lowering {E A} (s : Susp E A) : Prop :=
  match s with
  | Finished _ => False
  | Blocked _ k => forall r, lowers_flag (k r)
  end.

(** A suspended invocation that will not write the flag again. *)
Definition past_lowering {E A} (s : Susp E A) : Prop :=
  match s with
  | Finished _ => True
  | Blocked _ k => forall r, quiet_flag (k r)
  end.

Definition is_finished {E A} (s : Susp E A) : bool :=
  match s with Finished _ => true | Blocked _ _ => false end.

(** The invocations a schedule makes. *)
Fixpoint invocations {E} (schedule : list (Sched (E := E))) : list (Async E unit) :=
  match schedule with
  | [] => []
  | Invoke p :: rest => p :: invocations rest
  | Resume _ :: rest => invocations rest
  end.

(** The phase of a suspended invocation: [true] before its lowering of
    the flag, [false] past it. *)
Definition in_phase {E} (phase : bool) (s : Susp E unit) : Prop :=
  if phase then before_lowering s else past_lowering s.

(** Whenever the flag is up, some invocation has its lowering ahead. *)
Definition flag_invariant {E Env} (pool : Pool (E := E) (Env := Env)) : Prop :=
  exists phases,
    Forall2 in_phase phases (tasks pool)
    /\ (_isIndexingInProgress (controller (world pool)) = true ->
        true ∈ phases).

(** *** A faulty artifact fetcher

    As [installer_host], with the outcome of [makeTemporaryToolkitFolder]
    and of the download given. *)
Definition faulty_fetch_settle {Content : Type}
    (temp : Settled string) (download : Settled unit)
    (X : Type) (d : DownloadE Content X) (disk : gset string)
    : gset string * Settled X :=
  match d in DownloadE _ X return gset string * Settled X with
  | MakeTemporaryToolkitFolder =>
      match temp with
      | Fulfilled folder => ({[ folder ]} ∪ disk, temp)
      | Rejected _ => (disk, temp)
      end
  | DownloadAndExtractServer args =>
      match download with
      | Fulfilled _ => ({[ installLocation args ]} ∪ disk, download)
      | Rejected _ => (disk, download)
      end
  | InstallRuntime _ nodePath _ => ({[ nodePath ]} ∪ disk, Fulfilled tt)
  end.

Definition faulty_installer_host {Content : Type}
    (temp : Settled string) (download : Settled unit)
    : Host (FsE +' DownloadE Content) (gset string) :=
  {| settle := fun X c disk =>
                 match c with
                 | inl1 f => fs_settle X f disk
                 | inr1 d => faulty_fetch_settle temp download X d disk
                 end;
     clock := fun disk => (disk, 0%Q) |}.

Definition network_down : Thrown :=
  ErrorObj "Error" "getaddrinfo ENOTFOUND aws-toolkit-language-servers.amazonaws.com".

Definition disk_full : Thrown :=
  ErrorObj "Error" "ENOSPC: no space left on device, mkdtemp".

(** *** A file system that does not let go

    [tryRemoveFolder] answers false and removes nothing; the rest is as in
    [disk_host]. *)
Definition stubborn_settle (X : Type) (c : FsE X) (disk : gset string)
    : gset string * Settled X :=
  match c in FsE X return gset string * Settled X with
  | TryRemoveFolder folder => (disk, Fulfilled false)
  | c => fs_settle _ c disk
  end.

Definition stubborn_host : Host FsE (gset string) :=
  {| settle := stubborn_settle; clock := fun disk => (disk, 0%Q) |}.

(** *** What cleanup is expected to ask

    The calls of a [cleanup] that guards each removal, read off the answers
    of the file system: the existence of the node path is asked in the
    surroundings [e]; its deletion follows only on the answer true. *)
Definition node_calls_guarded {Env} (host : Host FsE Env) (c : LspController)
    (e : Env) : list FsCall :=
  AskedExists (nodePath c)
  :: match settle host (FsExists (nodePath c)) e with
     | (_, Fulfilled true) => [AskedDelete (nodePath c)]
     | _ => []
     end.

(** The existence of the server path is asked first; its removal follows
    only on the answer true, and the node path comes after it. *)
Definition cleanup_calls_guarded {Env} (host : Host FsE Env)
    (c : LspController) (e : Env) : list FsCall :=
  AskedExists (serverPath c)
  :: match settle host (FsExists (serverPath c)) e with
     | (e1, Fulfilled true) =>
         AskedRemoveFolder (serverPath c)
         :: match settle host (TryRemoveFolder (serverPath c)) e1 with
            | (e2, Fulfilled _) => node_calls_guarded host c e2
            | (_, Rejected _) => []
            end
     | (e1, Fulfilled false) => node_calls_guarded host c e1
     | (_, Rejected _) => []
     end.

(** ** The login webview of Amazon Q

    [packages/core/src/login/webview/vue/amazonq/backend_amazonq.ts] *)

Module AmazonQLoginWebview.

(** [SsoConnection], by the properties [fetchConnections] reads and
    writes.  [getToken] is a thunk of a settled token. *)
Record SsoConnection : Type := {
  id : string;
  label : string;
  scopes : option (list string);
  ssoRegion : string;
  type : string;
  startUrl : string;
  getToken : unit -> Settled string
}.

(** The API object an extension exports. *)
Inductive ToolkitApi : Type := toolkit_api.

(** What [vscode.extensions.getExtension] hands back when the extension
    is there. *)
Record Extension : Type := { exports : option ToolkitApi }.

(** [importedApi.listConnections()], and the [await] of a value that is
    not a promise, which suspends the method without any collaborator. *)
Inductive ToolkitE : Type -> Type :=
| ListConnections (api : ToolkitApi) : ToolkitE (option (list SsoConnection))
| NotAPromise : ToolkitE unit.

(** The [TypeError] of reading a property of [undefined]. *)
Definition TypeError_undefined (property : string) : Thrown :=
  ErrorObj "TypeError"
    ("Cannot read properties of undefined (reading '" ++ property ++ "')").

(** [connection.scopes?.includes('codewhisperer:completions')], as a
    condition. *)
Definition includes_completions (connection : SsoConnection) : bool :=
  match scopes connection with
  | Some scopes => existsb (String.eqb "codewhisperer:completions") scopes
  | None => false
  end.

(** The element [fetchConnections] pushes for one connection. *)
Definition pushed_connection (amazonQScopes : list string)
    (connection : SsoConnection) : SsoConnection :=
  if includes_completions connection then connection
  else
    {| id := id connection;
       label := label connection;
       scopes := Some amazonQScopes;
       ssoRegion := ssoRegion connection;
       type := type connection;
       startUrl := startUrl connection;
       getToken := fun _ => getToken connection tt |}.

(** [fetchConnections].  [toolkitExt] is what
    [vscode.extensions.getExtension('amazonwebservices.aws-toolkit-vscode')]
    returned; [amazonQScopes] is the constant of [codewhisperer/util/authUtil]. *)
Definition fetchConnections (amazonQScopes : list string)
    (toolkitExt : option Extension) : Async ToolkitE (list SsoConnection) :=
  let importedApi := toolkitExt ≫= exports in
  let connections := [] in
  toolkitConnections <-
    match importedApi with
    | Some api => await (ListConnections api)
    | None => _ <- await NotAPromise ;; Ret None
    end ;;
  match toolkitConnections with
  | None => Throw (TypeError_undefined "forEach")
  | Some toolkitConnections =>
      Ret (fold_left
             (fun connections connection =>
                (connections ++ [pushed_connection amazonQScopes connection])%list)
             toolkitConnections connections)
  end.

(** A toolkit that lists the given connections. *)
Definition toolkit_host (listed : Settled (option (list SsoConnection)))
    : Host ToolkitE unit :=
  {| settle := fun X c u =>
                 (u, match c in ToolkitE X return Settled X with
                     | ListConnections _ => listed
                     | NotAPromise => Fulfilled tt
                     end);
     clock := fun u => (u, 0%Q) |}.

End AmazonQLoginWebview.

(** ** The CloudFormation client

    [DefaultCloudFormationClient], of [shared/clients]. *)

Module DefaultCloudFormationClient.

Record StackSummary : Type := {
  StackName : string;
  StackStatus : string
}.

Record ListStacksInput : Type := {
  StackStatusFilter : list string;
  NextToken : option string
}.

Record ListStacksOutput : Type := {
  StackSummaries : option (list StackSummary);
  response_NextToken : option string
}.

(** The SDK client the builder hands back, by a handle. *)
Record CloudFormation : Type := { handle : nat }.

Inductive CfnE : Type -> Type :=
| CreateAndConfigureServiceClient (regionCode : string) : CfnE CloudFormation
| SdkDeleteStack (client : CloudFormation) (StackName : string) : CfnE unit
| SdkListStacks (client : CloudFormation) (request : ListStacksInput)
    : CfnE ListStacksOutput
| SdkDescribeStackResources (client : CloudFormation) (StackName : string)
    : CfnE (list string).

(** [createSdkClient] *)
Definition createSdkClient (regionCode : string) : Async CfnE CloudFormation :=
  await (CreateAndConfigureServiceClient regionCode).

Definition deleteStack (regionCode name : string) : Async CfnE unit :=
  client <- createSdkClient regionCode ;;
  await (SdkDeleteStack client name).

Definition describeStackResources (regionCode name : string)
    : Async CfnE (list string) :=
  client <- createSdkClient regionCode ;;
  await (SdkDescribeStackResources client name).

(** Every StackStatus except for DELETE_COMPLETE *)
Definition every_status_but_deleted : list string :=
  [ "CREATE_IN_PROGRESS"; "CREATE_FAILED"; "CREATE_COMPLETE";
    "ROLLBACK_IN_PROGRESS"; "ROLLBACK_FAILED"; "ROLLBACK_COMPLETE";
    "DELETE_IN_PROGRESS"; "DELETE_FAILED";
    "UPDATE_IN_PROGRESS"; "UPDATE_COMPLETE_CLEANUP_IN_PROGRESS";
    "UPDATE_COMPLETE"; "UPDATE_ROLLBACK_IN_PROGRESS";
    "UPDATE_ROLLBACK_FAILED";
    "UPDATE_ROLLBACK_COMPLETE_CLEANUP_IN_PROGRESS";
    "UPDATE_ROLLBACK_COMPLETE"; "REVIEW_IN_PROGRESS";
    "IMPORT_IN_PROGRESS"; "IMPORT_COMPLETE";
    "IMPORT_ROLLBACK_IN_PROGRESS"; "IMPORT_ROLLBACK_FAILED";
    "IMPORT_ROLLBACK_COMPLETE" ].

(** An asynchronous generator over the collaborators [E] that yields
    values of [Y].  [GUnrolled] stands for a loop that has not been
    unrolled further. *)
Inductive AsyncGen (E : Type -> Type) (Y : Type) : Type :=
| GReturn
| GThrow (e : Thrown)
| GYield (y : Y) (k : AsyncGen E Y)
| GAwait {X : Type} (c : E X) (k : Settled X -> AsyncGen E Y)
| GUnrolled.
Arguments GReturn {E Y}.
Arguments GThrow {E Y} e.
Arguments GYield {E Y} y k.
Arguments GAwait {E Y X} c k.
Arguments GUnrolled {E Y}.

(** [yield* ys], then [k] *)
Definition yield_star {E Y} (ys : list Y) (k : AsyncGen E Y) : AsyncGen E Y :=
  fold_right GYield k ys.

(** The [do ... while (request.NextToken)] loop of [listStacks], unrolled
    at most [fuel] times. *)
Fixpoint listStacks_loop (fuel : nat) (client : CloudFormation)
    (request : ListStacksInput) : AsyncGen CfnE StackSummary :=
  match fuel with
  | O => GUnrolled
  | S fuel' =>
      GAwait (SdkListStacks client request)
        (fun settled =>
           match settled with
           | Rejected e => GThrow e
           | Fulfilled response =>
               let rest :=
                 let request :=
                   {| StackStatusFilter := StackStatusFilter request;
                      NextToken := response_NextToken response |} in
                 if truthy (NextToken request)
                 then listStacks_loop fuel' client request
                 else GReturn in
               match StackSummaries response with
               | Some summaries => yield_star summaries rest
               | None => rest
               end
           end)
  end.

Definition listStacks (fuel : nat) (regionCode : string)
    : AsyncGen CfnE StackSummary :=
  GAwait (CreateAndConfigureServiceClient regionCode)
    (fun settled =>
       match settled with
       | Rejected e => GThrow e
       | Fulfilled client =>
           let request :=
             {| StackStatusFilter := every_status_but_deleted;
                NextToken := None |} in
           listStacks_loop fuel client request
       end).

(** How a generator ended for a consumer that drew everything. *)
Inductive Completion : Type :=
| Returned
| Threw (e : Thrown)
| NotUnrolled.

(** What a consumer that iterates to the end receives: the values
    yielded, in order, the [listStacks] requests sent, and how the
    generator ended. *)
Record Drained (Y Env : Type) : Type := {
  yielded : list Y;
  requested : list ListStacksInput;
  completion : Completion;
  left : Env
}.
Arguments yielded {Y Env} _.
Arguments requested {Y Env} _.
Arguments completion {Y Env} _.
Arguments left {Y Env} _.

Definition request_of {X} (c : CfnE X) : list ListStacksInput :=
  match c with
  | SdkListStacks _ request => [request]
  | _ => []
  end.

Fixpoint drain {Y Env} (host : Host CfnE Env) (g : AsyncGen CfnE Y) (e : Env)
    : Drained Y Env :=
  match g with
  | GReturn =>
      {| yielded := []; requested := []; completion := Returned; left := e |}
  | GThrow err =>
      {| yielded := []; requested := []; completion := Threw err; left := e |}
  | GUnrolled =>
      {| yielded := []; requested := []; completion := NotUnrolled; left := e |}
  | GYield y k =>
      let d := drain host k e in
      {| yielded := y :: yielded d; requested := requested d;
         completion := completion d; left := left d |}
  | GAwait c k =>
      let (e', r) := settle host c e in
      let d := drain host (k r) e' in
      {| yielded := yielded d;
         requested := (request_of c ++ requested d)%list;
         completion := completion d; left := left d |}
  end.

(** The summaries a page carries ([StackSummaries] may be missing). *)
Definition summaries_of (page : ListStacksOutput) : list StackSummary :=
  default [] (StackSummaries page).

(** The request that asks for the page behind [token]. *)
Definition page_request (token : option string) : ListStacksInput :=
  {| StackStatusFilter := every_status_but_deleted; NextToken := token |}.

(** [pages_of host client e token pages e']: asked from [token] on, in
    surroundings [e], the service answers the pages [pages], each but the
    last naming the next one, and leaves the surroundings [e']. *)
Inductive pages_of {Env} (host : Host CfnE Env) (client : CloudFormation)
    : Env -> option string -> list ListStacksOutput -> Env -> Prop :=
| pages_last e token page e' :
    settle host (SdkListStacks client (page_request token)) e
    = (e', Fulfilled page) ->
    truthy (response_NextToken page) = false ->
    pages_of host client e token [page] e'
| pages_more e token page e' pages e'' :
    settle host (SdkListStacks client (page_request token)) e
    = (e', Fulfilled page) ->
    truthy (response_NextToken page) = true ->
    pages_of host client e' (response_NextToken page) pages e'' ->
    pages_of host client e token (page :: pages) e''.

(** [pages_until_error host client e token pages error e']: the service
    answers the pages [pages], each naming the next one, and then rejects
    the request for the page after them with [error]. *)
Inductive pages_until_error {Env} (host : Host CfnE Env)
    (client : CloudFormation)
    : Env -> option string -> list ListStacksOutput -> Thrown -> Env -> Prop :=
| pages_error e token error e' :
    settle host (SdkListStacks client (page_request token)) e
    = (e', Rejected error) ->
    pages_until_error host client e token [] error e'
| pages_then e token page e' pages error e'' :
    settle host (SdkListStacks client (page_request token)) e
    = (e', Fulfilled page) ->
    truthy (response_NextToken page) = true ->
    pages_until_error host client e' (response_NextToken page) pages error e'' ->
    pages_until_error host client e token (page :: pages) error e''.

(** A service that keeps its pages by token. *)
Definition paged_host (pages : option string -> Settled ListStacksOutput)
    : Host CfnE unit :=
  {| settle := fun X c u =>
                 (u, match c in CfnE X return Settled X with
                     | CreateAndConfigureServiceClient _ =>
                         Fulfilled {| handle := 1 |}
                     | SdkDeleteStack _ _ => Fulfilled tt
                     | SdkListStacks _ request => pages (NextToken request)
                     | SdkDescribeStackResources _ _ => Fulfilled []
                     end);
     clock := fun u => (u, 0%Q) |}.

End DefaultCloudFormationClient.

(** The requests that fetch [pages] starting from [token]: the first
    carries [token], each later one the token the page before it named. *)
Fixpoint requests_for (token : option string)
    (pages : list DefaultCloudFormationClient.ListStacksOutput)
    : list DefaultCloudFormationClient.ListStacksInput :=
  match pages with
  | [] => []
  | page :: rest =>
      DefaultCloudFormationClient.page_request token
      :: requests_for (DefaultCloudFormationClient.response_NextToken page) rest
  end.

(** ** Sample data *)

Definition linux : Process := {| platform := "linux"; arch := "x64" |}.
Definition windows : Process := {| platform := "win32"; arch := "x64" |}.

Definition fresh : LspController :=
  {| _isIndexingInProgress := false;
     serverPath := "/ext/resources/qserver";
     nodePath := "/ext/resources/node" |}.

Definition quiet : LspScript :=
  {| onQueryVectorIndex := Fulfilled None;
     onQueryInline := Fulfilled [];
     onCollect := Fulfilled [];
     onBuildIndex := Fulfilled true;
     onUsage := Fulfilled None;
     onRepoMap := Fulfilled EmptyString;
     ticks := 0%Q |}.

Definition answering (chunks : option (list Chunk)) : LspScript :=
  {| onQueryVectorIndex := Fulfilled chunks;
     onQueryInline := onQueryInline quiet;
     onCollect := onCollect quiet;
     onBuildIndex := onBuildIndex quiet;
     onUsage := onUsage quiet;
     onRepoMap := onRepoMap quiet;
     ticks := ticks quiet |}.

Definition chunk_ctx_raw : Chunk :=
  {| filePath := "/x/y.py"; content := "RAW"; context := Some "CTX";
     relativePath := None; programmingLanguage := None |}.

Definition chunk_unknown : Chunk :=
  {| filePath := "/x/y.py"; content := "C"; context := None;
     relativePath := None; programmingLanguage := Some "unknown" |}.

Definition chunk_blank : Chunk :=
  {| filePath := "/x/y.py"; content := "RAW"; context := Some EmptyString;
     relativePath := Some EmptyString; programmingLanguage := Some "python" |}.

Definition folders_b_a : option (list WorkspaceFolder) :=
  Some [ {| folderName := "b"; uri_fsPath := "/b" |};
         {| folderName := "a"; uri_fsPath := "/a" |} ].

Definition folders_a_b : option (list WorkspaceFolder) :=
  Some [ {| folderName := "a"; uri_fsPath := "/a" |};
         {| folderName := "b"; uri_fsPath := "/b" |} ].

Definition config250 : BuildIndexConfig :=
  {| startUrl := None; maxIndexSize := 250; isVectorIndexEnabled := true |}.

Definition busy : LspController := withIndexing true fresh.

Definition EACCES : Thrown :=
  ErrorObj "EntryNotFound" "EACCES: permission denied, scandir /a".

Definition channel_closed : Thrown :=
  ErrorObj "Error" "Connection is closed.".

(** Collection rejects; everything else settles as in [quiet]. *)
Definition collect_fails : LspScript :=
  {| onQueryVectorIndex := onQueryVectorIndex quiet;
     onQueryInline := onQueryInline quiet;
     onCollect := Rejected EACCES;
     onBuildIndex := onBuildIndex quiet;
     onUsage := onUsage quiet;
     onRepoMap := onRepoMap quiet;
     ticks := ticks quiet |}.

(** The channel to the language server is down: file collection, which
    does not use it, fulfils, and every operation of the client rejects. *)
Definition channel_down : LspScript :=
  {| onQueryVectorIndex := Rejected channel_closed;
     onQueryInline := Rejected channel_closed;
     onCollect := Fulfilled [];
     onBuildIndex := Rejected channel_closed;
     onUsage := Rejected channel_closed;
     onRepoMap := Rejected channel_closed;
     ticks := ticks quiet |}.

(** Two invocations of [buildIndex], the second made while the first is
    suspended on its file collection, resumed in turn. *)
Definition two_builds : list (Sched (E := LspE)) :=
  [ Invoke (buildIndex folders_b_a config250);
    Invoke (buildIndex folders_b_a config250);
    Resume 0; Resume 1; Resume 0; Resume 1;
    Resume 0; Resume 1; Resume 0; Resume 1 ].

Definition empty_pool {E Env} (c : LspController) (e : Env) : Pool (E := E) :=
  {| tasks := []; world := idle c e |}.

(** A manifest with a server entry for the host and no runtime entry. *)
Definition manifest_without_node : list ManifestEntry :=
  [ {| entryName := "qserver"; entryVersion := "0.1.32";
       entryPlatform := "linux"; entryArch := "x64";
       entryUrl := "https://example.invalid/qserver-linux-x64.zip" |};
    {| entryName := "node"; entryVersion := "0.1.32";
       entryPlatform := "darwin"; entryArch := "arm64";
       entryUrl := "https://example.invalid/node-darwin-arm64" |} ].

Definition manifest_complete : list ManifestEntry :=
  [ {| entryName := "qserver"; entryVersion := "0.1.32";
       entryPlatform := "linux"; entryArch := "x64";
       entryUrl := "https://example.invalid/qserver-linux-x64.zip" |};
    {| entryName := "node"; entryVersion := "0.1.32";
       entryPlatform := "linux"; entryArch := "x64";
       entryUrl := "https://example.invalid/node-linux-x64" |} ].

Definition installed_disk : gset string :=
  {[ "/ext/resources/qserver"; "/ext/resources/qserver/lspServer.js";
     "/ext/resources/node"; "/ext/package.json" ]}.

(** The two invocations again, the first resumed to its end while the
    second stays suspended on its file collection. *)
Definition first_build_overtakes : list (Sched (E := LspE)) :=
  [ Invoke (buildIndex folders_b_a config250);
    Invoke (buildIndex folders_b_a config250);
    Resume 0; Resume 0; Resume 0; Resume 0;
    Resume 1; Resume 1; Resume 1; Resume 1 ].

(** The second invocation is made while the first is suspended on the
    retrieval of the repo map in its final clause; the first is then
    resumed to its end. *)
Definition second_build_during_snapshot : list (Sched (E := LspE)) :=
  [ Invoke (buildIndex folders_b_a config250);
    Resume 0; Resume 0; Resume 0;
    Invoke (buildIndex folders_b_a config250);
    Resume 0 ].

(** The same two invocations, the second made after the first completed. *)
Definition two_builds_in_a_row : list (Sched (E := LspE)) :=
  [ Invoke (buildIndex folders_b_a config250);
    Resume 0; Resume 0; Resume 0; Resume 0;
    Invoke (buildIndex folders_b_a config250);
    Resume 1; Resume 1; Resume 1; Resume 1 ].

Definition two_files : list CollectedFile :=
  [ {| fileUri_fsPath := "/a/main.py"; fileSizeBytes := 1048576 |};
    {| fileUri_fsPath := "/b/lib.ts"; fileSizeBytes := 2097152 |} ].

Definition usage_sample : Usage :=
  {| memoryUsage := 104857600%Q; cpuUsage := 12%Q |}.

(** Two files are collected, the child build succeeds and reports usage. *)
Definition indexing_ok : LspScript :=
  {| onQueryVectorIndex := onQueryVectorIndex quiet;
     onQueryInline := onQueryInline quiet;
     onCollect := Fulfilled two_files;
     onBuildIndex := Fulfilled true;
     onUsage := Fulfilled (Some usage_sample);
     onRepoMap := Fulfilled "/a/repomap.json";
     ticks := ticks quiet |}.

(** The child build answers false. *)
Definition child_fails : LspScript :=
  {| onQueryVectorIndex := onQueryVectorIndex quiet;
     onQueryInline := onQueryInline quiet;
     onCollect := Fulfilled two_files;
     onBuildIndex := Fulfilled false;
     onUsage := onUsage quiet;
     onRepoMap := onRepoMap quiet;
     ticks := ticks quiet |}.

(** The child build succeeds, the usage query that follows rejects. *)
Definition usage_fails : LspScript :=
  {| onQueryVectorIndex := onQueryVectorIndex quiet;
     onQueryInline := onQueryInline quiet;
     onCollect := Fulfilled two_files;
     onBuildIndex := Fulfilled true;
     onUsage := Rejected channel_closed;
     onRepoMap := onRepoMap quiet;
     ticks := ticks quiet |}.

(** The inline query answers two snippets. *)
Definition inline_answers : LspScript :=
  {| onQueryVectorIndex := onQueryVectorIndex quiet;
     onQueryInline := Fulfilled ["def f(): pass"; "class C: pass"];
     onCollect := onCollect quiet;
     onBuildIndex := onBuildIndex quiet;
     onUsage := onUsage quiet;
     onRepoMap := onRepoMap quiet;
     ticks := ticks quiet |}.

Definition chunk_python : Chunk :=
  {| filePath := "/x/y.py"; content := "RAW"; context := None;
     relativePath := Some "src/y.py"; programmingLanguage := Some "python" |}.

Definition builder_id : AmazonQLoginWebview.SsoConnection :=
  {| AmazonQLoginWebview.id := "builder-id";
     AmazonQLoginWebview.label := "AWS Builder ID";
     AmazonQLoginWebview.scopes :=
       Some ["codewhisperer:completions"; "codewhisperer:analysis"];
     AmazonQLoginWebview.ssoRegion := "us-east-1";
     AmazonQLoginWebview.type := "sso";
     AmazonQLoginWebview.startUrl := "https://view.awsapps.com/start";
     AmazonQLoginWebview.getToken := fun _ => Fulfilled "token-1" |}.

Definition explorer_only : AmazonQLoginWebview.SsoConnection :=
  {| AmazonQLoginWebview.id := "idc";
     AmazonQLoginWebview.label := "IAM Identity Center";
     AmazonQLoginWebview.scopes := Some ["sso:account:access"];
     AmazonQLoginWebview.ssoRegion := "eu-west-1";
     AmazonQLoginWebview.type := "sso";
     AmazonQLoginWebview.startUrl := "https://corp.awsapps.com/start";
     AmazonQLoginWebview.getToken := fun _ => Fulfilled "token-2" |}.

Definition sample_amazonQScopes : list string :=
  ["codewhisperer:completions"; "codewhisperer:analysis";
   "codewhisperer:conversations"].

Definition toolkit_installed : option AmazonQLoginWebview.Extension :=
  Some {| AmazonQLoginWebview.exports := Some AmazonQLoginWebview.toolkit_api |}.

Definition stack (name : string) : DefaultCloudFormationClient.StackSummary :=
  {| DefaultCloudFormationClient.StackName := name;
     DefaultCloudFormationClient.StackStatus := "CREATE_COMPLETE" |}.

Definition first_page : DefaultCloudFormationClient.ListStacksOutput :=
  {| DefaultCloudFormationClient.StackSummaries := Some [stack "a"; stack "b"];
     DefaultCloudFormationClient.response_NextToken := Some "t1" |}.

Definition second_page : DefaultCloudFormationClient.ListStacksOutput :=
  {| DefaultCloudFormationClient.StackSummaries := None;
     DefaultCloudFormationClient.response_NextToken := Some "t2" |}.

(** The last page names an empty token. *)
Definition third_page : DefaultCloudFormationClient.ListStacksOutput :=
  {| DefaultCloudFormationClient.StackSummaries := Some [stack "c"];
     DefaultCloudFormationClient.response_NextToken := Some EmptyString |}.

Definition throttled : Thrown := ErrorObj "Throttling" "Rate exceeded".

Definition three_pages (token : option string)
    : Settled DefaultCloudFormationClient.ListStacksOutput :=
  match token with
  | None => Fulfilled first_page
  | Some token =>
      if token =? "t1" then Fulfilled second_page
      else if token =? "t2" then Fulfilled third_page
      else Rejected throttled
  end.

(** The second page is refused. *)
Definition one_page_then_throttled (token : option string)
    : Settled DefaultCloudFormationClient.ListStacksOutput :=
  match token with
  | None => Fulfilled first_page
  | Some _ => Rejected throttled
  end.

(** * Properties *)

(** ** query *)

Lemma fold_push_map process chunks resp :
  fold_left (fun resp chunk => (resp ++ [pushed process chunk])%list) chunks resp
  = (resp ++ map (pushed process) chunks)%list.
Proof.
  revert resp. induction chunks as [|chunk chunks IH]; intros resp; simpl.
  - by rewrite app_nil_r.
  - rewrite IH. by rewrite <- app_assoc.
Qed.

Lemma forEach_push_map process chunks :
  forEach_push process (Some chunks) [] = map (pushed process) chunks.
Proof. unfold forEach_push. by rewrite fold_push_map. Qed.

Section QueryRun.

Context {Env : Type}.
Variable host : Host LspE Env.
Variable process : Process.

Lemma run_query tid s (w : World LspE Env) e' chunks :
  settle host (QueryVectorIndex s) (env w) = (e', Fulfilled chunks) ->
  snd (run host tid (query process s) w)
  = Fulfilled (forEach_push process chunks []).
Proof. intros Hs. unfold query. simpl. by rewrite Hs. Qed.

Lemma run_query_docs tid s (w : World LspE Env) e' chunks i chunk :
  settle host (QueryVectorIndex s) (env w) = (e', Fulfilled (Some chunks)) ->
  chunks !! i = Some chunk ->
  exists docs,
    snd (run host tid (query process s) w) = Fulfilled docs
    /\ docs !! i = Some (pushed process chunk).
Proof.
  intros Hs Hi. exists (map (pushed process) chunks). split.
  - rewrite (run_query _ _ _ _ _ Hs). by rewrite forEach_push_map.
  - change (map (pushed process) chunks) with (pushed process <$> chunks).
    by rewrite list_lookup_fmap, Hi.
Qed.

End QueryRun.

Lemma orElse_nonempty s d : s <> EmptyString -> orElse (Some s) d = s.
Proof.
  intros Hs. unfold orElse, truthy.
  destruct (String.eqb_spec s EmptyString); [contradiction | reflexivity].
Qed.

Lemma orElse_falsy o d : truthy o = false -> orElse o d = d.
Proof. intros H. unfold orElse. destruct o; [by rewrite H | done]. Qed.

Lemma text_pushed process chunk :
  text (pushed process chunk) = orElse (context chunk) (content chunk).
Proof. unfold pushed. by destruct (_ && _). Qed.

Lemma relativeFilePath_pushed process chunk :
  relativeFilePath (pushed process chunk)
  = orElse (relativePath chunk) (NodePath.basename process (filePath chunk)).
Proof. unfold pushed. by destruct (_ && _). Qed.

Lemma language_pushed process chunk :
  rtd_programmingLanguage (pushed process chunk)
  = if truthy (programmingLanguage chunk)
       && negb (default EmptyString (programmingLanguage chunk) =? "unknown")
    then Some {| languageName := default EmptyString (programmingLanguage chunk) |}
    else None.
Proof. unfold pushed. by destruct (_ && _). Qed.

(** The basename of [/x/y.py] is [y.py] under both flavours of [path]. *)
Lemma basename_x_y_py process : NodePath.basename process "/x/y.py" = "y.py".
Proof. unfold NodePath.basename. by destruct (platform process =? "win32"). Qed.

(** C5, as stated, fails: a chunk that has a context field holding the
    empty string is normalized to its raw content, not to its context
    value. *)
Lemma query_blank_context_counterexample :
  context chunk_blank = Some EmptyString
  /\ content chunk_blank = "RAW"
  /\ snd (run scripted 0 (query linux "q")
            (idle fresh (answering (Some [chunk_blank]))))
     = Fulfilled [ {| text := "RAW";
                      relativeFilePath := "y.py";
                      rtd_programmingLanguage :=
                        Some {| languageName := "python" |} |} ]
  /\ text (pushed linux chunk_blank) <> EmptyString.
Proof. repeat split. discriminate. Qed.

(** C5 (amended): for every chunk returned by the vector-index query whose
    context field is a non-empty string, the record [query] produces at
    the same position has that context value as its text, whatever the
    content field holds. *)
Theorem query_prefers_context
    {Env} (host : Host LspE Env) process tid s (w : World LspE Env) e'
    chunks i chunk c :
  settle host (QueryVectorIndex s) (env w) = (e', Fulfilled (Some chunks)) ->
  chunks !! i = Some chunk ->
  context chunk = Some c ->
  c <> EmptyString ->
  exists docs doc,
    snd (run host tid (query process s) w) = Fulfilled docs
    /\ docs !! i = Some doc
    /\ text doc = c.
Proof.
  intros Hs Hi Hc Hne.
  destruct (run_query_docs host process tid s w e' chunks i chunk Hs Hi)
    as (docs & Hrun & Hdoc).
  exists docs, (pushed process chunk). repeat split; [done..|].
  rewrite text_pushed, Hc. by apply orElse_nonempty.
Qed.

(** The chunk with context [CTX] and content [RAW] is normalized to the
    text [CTX]. *)
Lemma query_prefers_context_witness :
  settle scripted (QueryVectorIndex "q")
    (env (idle (E := LspE) fresh (answering (Some [chunk_ctx_raw]))))
  = (tick (answering (Some [chunk_ctx_raw])), Fulfilled (Some [chunk_ctx_raw]))
  /\ [chunk_ctx_raw] !! 0%nat = Some chunk_ctx_raw
  /\ context chunk_ctx_raw = Some "CTX"
  /\ content chunk_ctx_raw = "RAW"
  /\ "CTX" <> EmptyString
  /\ exists docs doc,
       snd (run scripted 0 (query linux "q")
              (idle fresh (answering (Some [chunk_ctx_raw]))))
       = Fulfilled docs
       /\ docs !! 0%nat = Some doc
       /\ text doc = "CTX".
Proof.
  repeat (split; [reflexivity || discriminate |]).
  apply (query_prefers_context scripted linux 0 "q" _
           (tick (answering (Some [chunk_ctx_raw]))) [chunk_ctx_raw] 0
           chunk_ctx_raw "CTX");
    reflexivity || discriminate.
Defined.

(** C6: for every chunk returned by the vector-index query, the record
    [query] produces at the same position carries no language tag when the
    chunk's programmingLanguage is absent or is the sentinel [unknown], and
    has the basename of the chunk's filePath as its relative path when the
    chunk has no relativePath. *)
Theorem query_language_and_basename
    {Env} (host : Host LspE Env) process tid s (w : World LspE Env) e'
    chunks i chunk :
  settle host (QueryVectorIndex s) (env w) = (e', Fulfilled (Some chunks)) ->
  chunks !! i = Some chunk ->
  exists docs doc,
    snd (run host tid (query process s) w) = Fulfilled docs
    /\ docs !! i = Some doc
    /\ (programmingLanguage chunk = None
        \/ programmingLanguage chunk = Some "unknown" ->
        rtd_programmingLanguage doc = None)
    /\ (relativePath chunk = None ->
        relativeFilePath doc = NodePath.basename process (filePath chunk)).
Proof.
  intros Hs Hi.
  destruct (run_query_docs host process tid s w e' chunks i chunk Hs Hi)
    as (docs & Hrun & Hdoc).
  exists docs, (pushed process chunk). repeat split; [done..| |].
  - rewrite language_pushed. by intros [-> | ->].
  - rewrite relativeFilePath_pushed. by intros ->.
Qed.

(** The chunk [{filePath: "/x/y.py", content: "C", programmingLanguage:
    "unknown"}] is normalized to a record without language tag whose
    relative path is [y.py]. *)
Lemma query_language_and_basename_witness :
  settle scripted (QueryVectorIndex "q")
    (env (idle (E := LspE) fresh (answering (Some [chunk_unknown]))))
  = (tick (answering (Some [chunk_unknown])), Fulfilled (Some [chunk_unknown]))
  /\ [chunk_unknown] !! 0%nat = Some chunk_unknown
  /\ snd (run scripted 0 (query linux "q")
            (idle fresh (answering (Some [chunk_unknown]))))
     = Fulfilled [ {| text := "C"; relativeFilePath := "y.py";
                      rtd_programmingLanguage := None |} ].
Proof.
  repeat (split; [reflexivity |]).
  destruct (query_language_and_basename scripted linux 0 "q"
              (idle fresh (answering (Some [chunk_unknown])))
              (tick (answering (Some [chunk_unknown]))) [chunk_unknown] 0
              chunk_unknown eq_refl eq_refl)
    as (docs & doc & Hrun & _).
  rewrite Hrun. injection Hrun as <-. reflexivity.
Defined.

(** C7: whenever the underlying vector-index query yields [undefined],
    [query] fulfils with the empty sequence of records; it does not
    reject. *)
Theorem query_undefined_is_empty
    {Env} (host : Host LspE Env) process tid s (w : World LspE Env) e' :
  settle host (QueryVectorIndex s) (env w) = (e', Fulfilled None) ->
  snd (run host tid (query process s) w) = Fulfilled [].
Proof. intros Hs. by rewrite (run_query host process tid s w e' None Hs). Qed.

Lemma query_undefined_is_empty_witness :
  settle scripted (QueryVectorIndex "q") (env (idle (E := LspE) fresh quiet))
  = (tick quiet, Fulfilled None)
  /\ snd (run scripted 0 (query linux "q") (idle fresh quiet)) = Fulfilled [].
Proof.
  split; [reflexivity |].
  apply (query_undefined_is_empty scripted linux 0 "q" _ (tick quiet)).
  reflexivity.
Defined.

(** C10: presence of the optional chunk fields is decided by truthiness.
    For every chunk returned by the vector-index query, the record [query]
    produces at the same position has the chunk's content as its text when
    the context is the empty string, and the basename of filePath as its
    relative path when relativePath is the empty string. *)
Theorem query_presence_is_truthiness
    {Env} (host : Host LspE Env) process tid s (w : World LspE Env) e'
    chunks i chunk :
  settle host (QueryVectorIndex s) (env w) = (e', Fulfilled (Some chunks)) ->
  chunks !! i = Some chunk ->
  exists docs doc,
    snd (run host tid (query process s) w) = Fulfilled docs
    /\ docs !! i = Some doc
    /\ (context chunk = Some EmptyString -> text doc = content chunk)
    /\ (relativePath chunk = Some EmptyString ->
        relativeFilePath doc = NodePath.basename process (filePath chunk)).
Proof.
  intros Hs Hi.
  destruct (run_query_docs host process tid s w e' chunks i chunk Hs Hi)
    as (docs & Hrun & Hdoc).
  exists docs, (pushed process chunk). repeat split; [done..| |].
  - rewrite text_pushed. by intros ->.
  - rewrite relativeFilePath_pushed. by intros ->.
Qed.

Lemma query_presence_is_truthiness_witness :
  settle scripted (QueryVectorIndex "q")
    (env (idle (E := LspE) fresh (answering (Some [chunk_blank]))))
  = (tick (answering (Some [chunk_blank])), Fulfilled (Some [chunk_blank]))
  /\ [chunk_blank] !! 0%nat = Some chunk_blank
  /\ context chunk_blank = Some EmptyString
  /\ relativePath chunk_blank = Some EmptyString
  /\ exists docs doc,
       snd (run scripted 0 (query linux "q")
              (idle fresh (answering (Some [chunk_blank]))))
       = Fulfilled docs
       /\ docs !! 0%nat = Some doc
       /\ text doc = "RAW"
       /\ relativeFilePath doc = "y.py".
Proof.
  repeat (split; [reflexivity |]).
  destruct (query_presence_is_truthiness scripted linux 0 "q"
              (idle fresh (answering (Some [chunk_blank])))
              (tick (answering (Some [chunk_blank]))) [chunk_blank] 0
              chunk_blank eq_refl eq_refl)
    as (docs & doc & Hrun & Hdoc & Htext & Hrel).
  exists docs, doc. repeat split; [done..| |].
  - apply Htext. reflexivity.
  - rewrite Hrel by reflexivity. reflexivity.
Defined.

(** ** The resumption semantics *)

(** Running to completion is advancing from suspension to suspension. *)
Lemma run_advance {E Env} (host : Host E Env) {A} tid (p : Async E A) w :
  run host tid p w
  = match advance host tid p w with
    | (w', Finished r) => (w', r)
    | (w', Blocked c k) =>
        let (e', r) := settle host c (env w') in
        run host tid (k r) (withEnv e' w')
    end.
Proof.
  revert w. induction p as [a|err|x k IH|k IH|k IH|X c k IH]; intros w; simpl;
    try done.
  destruct (clock host (env w)) as [e' t]. apply IH.
Qed.

(** [bind] sequences; a rejection skips the continuation. *)
Lemma run_bind {E Env} (host : Host E Env) {A B} tid
    (m : Async E A) (f : A -> Async E B) w :
  run host tid (bind m f) w
  = match run host tid m w with
    | (w', Fulfilled a) => run host tid (f a) w'
    | (w', Rejected err) => (w', Rejected err)
    end.
Proof.
  revert w. induction m as [a|err|x k IH|k IH|k IH|X c k IH]; intros w; simpl;
    try done.
  - destruct (clock host (env w)) as [e' t]. apply IH.
  - destruct (settle host c (env w)) as [e' r]. apply IH.
Qed.

(** [try_catch] hands a rejection of the body to the handler. *)
Lemma run_try_catch {E Env} (host : Host E Env) {A} tid
    (body : Async E A) handler w :
  run host tid (try_catch body handler) w
  = match run host tid body w with
    | (w', Fulfilled a) => (w', Fulfilled a)
    | (w', Rejected err) => run host tid (handler err) w'
    end.
Proof.
  revert w. induction body as [a|err|x k IH|k IH|k IH|X c k IH]; intros w;
    simpl; try done.
  - destruct (clock host (env w)) as [e' t]. apply IH.
  - destruct (settle host c (env w)) as [e' r]. apply IH.
Qed.

(** [try_finally] runs the final clause on both completions of the body,
    and a rejection of the final clause takes over. *)
Lemma run_try_finally {E Env} (host : Host E Env) {A} tid
    (body : Async E A) fin w :
  run host tid (try_finally body fin) w
  = let (w', r) := run host tid body w in
    match run host tid fin w' with
    | (w'', Fulfilled _) => (w'', r)
    | (w'', Rejected err) => (w'', Rejected err)
    end.
Proof.
  revert w. induction body as [a|err|x k IH|k IH|k IH|X c k IH]; intros w;
    simpl; try done.
  - rewrite run_bind. by destruct (run host tid fin w) as [w' [[]|err]].
  - rewrite run_bind. by destruct (run host tid fin w) as [w' [[]|err']].
  - destruct (clock host (env w)) as [e' t]. apply IH.
  - destruct (settle host c (env w)) as [e' r]. apply IH.
Qed.

(** ** buildIndex *)

Ltac settle_next :=
  match goal with
  | |- context [clock ?h ?e] =>
      let e' := fresh "e" in let t := fresh "t" in
      destruct (clock h e) as [e' t] eqn:?; simpl
  | |- context [settle ?h ?c ?e] =>
      let e' := fresh "e" in
      destruct (settle h c e) as [e' [?|?]] eqn:?; simpl
  end.

Ltac unfold_build :=
  unfold build_alone, buildIndex, buildIndex_try, buildIndex_catch,
    buildIndex_finally; simpl.

Lemma nonempty_paths_length (paths : list string) :
  paths <> [] -> (length paths =? 0)%nat = false.
Proof. destruct paths; [done | reflexivity]. Qed.

(** The head of the sorted paths is the least path. *)
Lemma sort_paths_head (paths : list string) :
  paths <> [] ->
  exists m, head (sort_paths paths) = Some m
            /\ m ∈ paths
            /\ forall p, p ∈ paths -> String.le m p.
Proof.
  intros Hne. unfold sort_paths.
  pose proof (merge_sort_Permutation String.le paths) as Hperm.
  pose proof (StronglySorted_merge_sort String.le paths) as Hsorted.
  destruct (merge_sort String.le paths) as [|m rest].
  - apply Permutation_nil_l in Hperm. congruence.
  - exists m. split; [done |]. split.
    + rewrite <- Hperm. set_solver.
    + intros p Hp. rewrite <- Hperm in Hp.
      apply StronglySorted_inv in Hsorted as [_ Hall].
      apply elem_of_cons in Hp as [-> | Hp]; [done |].
      by eapply Forall_forall in Hall.
Qed.

(** The least path depends on the set of paths only. *)
Lemma sort_paths_head_same_set (paths paths' : list string) m :
  (forall p, p ∈ paths <-> p ∈ paths') ->
  head (sort_paths paths) = Some m ->
  m ∈ paths ->
  (forall p, p ∈ paths -> String.le m p) ->
  head (sort_paths paths') = Some m.
Proof.
  intros Hsame Hhead Hin Hleast.
  assert (paths' <> []) as Hne'.
  { intros ->. apply Hsame in Hin. by apply elem_of_nil in Hin. }
  destruct (sort_paths_head paths' Hne') as (m' & Hhead' & Hin' & Hleast').
  rewrite Hhead'. f_equal.
  apply (anti_symm String.le).
  - apply Hleast', Hsame, Hin.
  - apply Hleast, Hsame, Hin'.
Qed.

(** An invocation of [buildIndex] with a non-empty list of workspace
    folders, run with nothing interleaved, against any surroundings: the
    flag is written twice, [true] and then [false]; it reads [true] at
    every suspension of the build but the last, which is the retrieval in
    the final clause and reads [false]; and it is [false] when the
    invocation completes, however the collaborators settled. *)
Lemma build_alone_flag_released
    {Env} (host : Host LspE Env) tid folders cfg c (e : Env) :
  map uri_fsPath (default [] folders) <> [] ->
  _isIndexingInProgress
    (controller (fst (build_alone host tid folders cfg c e))) = false
  /\ flag_writes
       (effects_of tid (journal (fst (build_alone host tid folders cfg c e))))
     = [true; false]
  /\ Forall (eq true)
       (removelast
          (flags_at_awaits tid
             (journal (fst (build_alone host tid folders cfg c e)))))
  /\ last (flags_at_awaits tid
             (journal (fst (build_alone host tid folders cfg c e))))
     = Some false
  /\ (1 < length (flags_at_awaits tid
                    (journal (fst (build_alone host tid folders cfg c e)))))%nat.
Proof.
  intros Hne. unfold_build.
  settle_next. rewrite (nonempty_paths_length _ Hne). simpl.
  repeat settle_next; rewrite ?Nat.eqb_refl; simpl.
  all: try match goal with
           | resp : bool |- _ =>
               destruct resp; simpl; repeat settle_next;
               rewrite ?Nat.eqb_refl; simpl
           end.
  all: repeat split; repeat constructor; lia.
Qed.

(** C3 (a defect of the code): the claim says that [buildIndex] never
    rejects to its caller, and the [catch] clause is there for that; but
    the final clause awaits the retrieval of the repo map outside any
    [catch].  When the channel to the language server is down, the child
    build call throws, the error is caught and reported, and then that
    retrieval throws as well: [buildIndex] rejects to its caller. *)
Theorem buildIndex_rejects_to_caller :
  thrown_in_build scripted folders_b_a config250 channel_down
  = Some (0%Q, channel_closed, tick (tick channel_down))
  /\ snd (build_alone scripted 0 folders_b_a config250 fresh channel_down)
     = Rejected channel_closed.
Proof. split; reflexivity. Qed.

(** What the code does with an error thrown during file collection or by
    the child build call: the [catch] clause logs it and emits an event
    with result [Failed], the error's name (or [Unknown]) as reason and a
    description made of the error's message; the final clause then clears
    the flag and issues the retrieval of the repo map, and the invocation
    completes as that retrieval does. *)
Lemma buildIndex_absorbs_error
    {Env} (host : Host LspE Env) tid folders cfg c (e : Env)
    start error e0 e1 t e2 snapshot :
  map uri_fsPath (default [] folders) <> [] ->
  thrown_in_build host folders cfg e = Some (start, error, e0) ->
  clock host e0 = (e1, t) ->
  settle host GetRepoMapJSON e1 = (e2, snapshot) ->
  (exists before,
     journal (fst (build_alone host tid folders cfg c e))
     = (before
        ++ [ (tid, Did (Log None LogError
                          "LspController: Failed to build index of project"));
             (tid, Did (Emit (failure_event (t - start)%Q error)));
             (tid, Did (SetIndexing false));
             (tid, Awaiting false GetRepoMapJSON) ]
        ++ match snapshot with
           | Fulfilled m => [(tid, Did (Log None LogInfo ("File path " ++ m)))]
           | Rejected _ => []
           end)%list)
  /\ result (failure_event (t - start)%Q error) = Failed
  /\ reason (failure_event (t - start)%Q error)
     = Some (errorNameOrUnknown error)
  /\ reasonDesc (failure_event (t - start)%Q error)
     = Some ("Error when building index. " ++ errorMessageOrSelf error)
  /\ _isIndexingInProgress
       (controller (fst (build_alone host tid folders cfg c e))) = false
  /\ snd (build_alone host tid folders cfg c e)
     = match snapshot with
       | Fulfilled _ => Fulfilled tt
       | Rejected e' => Rejected e'
       end.
Proof.
  intros Hne Hthrown Hclock Hsnap.
  unfold thrown_in_build in Hthrown. unfold_build.
  destruct (clock host e) as [e3 start'] eqn:Hstart. simpl.
  rewrite (nonempty_paths_length _ Hne). simpl.
  destruct (settle host (CollectFilesForIndex _ _ _ _) e3) as [e4 [files|err]]
    eqn:Hcollect; simpl.
  - destruct (settle host (ClientBuildIndex _ _ _) e4) as [e5 [resp|err]]
      eqn:Hbuild; [discriminate |]. simpl.
    injection Hthrown as -> -> ->. rewrite Hclock. simpl. rewrite Hsnap.
    destruct snapshot; simpl;
      (split; [eexists [_; _; _; _; _] | done]); reflexivity.
  - injection Hthrown as -> -> ->. rewrite Hclock. simpl. rewrite Hsnap.
    destruct snapshot; simpl;
      (split; [eexists [_; _; _] | done]); reflexivity.
Qed.

Lemma buildIndex_absorbs_error_witness :
  map uri_fsPath (default [] folders_b_a) <> []
  /\ thrown_in_build scripted folders_b_a config250 collect_fails
     = Some (0%Q, EACCES, tick collect_fails)
  /\ clock scripted (tick collect_fails) = (tick collect_fails, (0 + 1)%Q)
  /\ settle scripted GetRepoMapJSON (tick collect_fails)
     = (tick (tick collect_fails), Fulfilled EmptyString)
  /\ reason (failure_event (0 + 1 - 0)%Q EACCES) = Some "EntryNotFound"
  /\ _isIndexingInProgress
       (controller (fst (build_alone scripted 0 folders_b_a config250 fresh
                           collect_fails))) = false
  /\ snd (build_alone scripted 0 folders_b_a config250 fresh collect_fails)
     = Fulfilled tt.
Proof.
  split; [discriminate |]. do 3 (split; [reflexivity |]).
  destruct (buildIndex_absorbs_error scripted 0 folders_b_a config250 fresh
              collect_fails 0%Q EACCES (tick collect_fails)
              (tick collect_fails) (0 + 1)%Q (tick (tick collect_fails))
              (Fulfilled EmptyString) ltac:(discriminate) eq_refl eq_refl eq_refl)
    as (_ & _ & Hreason & _ & Hflag & Hdone).
  repeat split; assumption.
Defined.

(** C8: for every non-empty list of workspace folders, [buildIndex] takes
    the first element of the sorted root paths as project root: it is the
    root of the one child build call issued when file collection fulfils
    (no child build call is issued otherwise).  That element is the least
    root path, so a list with the same set of root paths resolves to the
    same project root. *)
Theorem buildIndex_project_root
    {Env} (host : Host LspE Env) tid folders folders' cfg c (e : Env) :
  map uri_fsPath (default [] folders) <> [] ->
  (forall p, p ∈ map uri_fsPath (default [] folders)
             <-> p ∈ map uri_fsPath (default [] folders')) ->
  exists projRoot,
    head (sort_paths (map uri_fsPath (default [] folders))) = Some projRoot
    /\ rootPaths_requested
         (journal (fst (build_alone host tid folders cfg c e)))
       = (if collection_fulfils host folders cfg e
          then [Some projRoot] else [])
    /\ projRoot ∈ map uri_fsPath (default [] folders)
    /\ (forall p, p ∈ map uri_fsPath (default [] folders) ->
                  String.le projRoot p)
    /\ head (sort_paths (map uri_fsPath (default [] folders'))) = Some projRoot.
Proof.
  intros Hne Hsame.
  destruct (sort_paths_head _ Hne) as (m & Hhead & Hin & Hleast).
  exists m. repeat split; [done | | done | done |].
  - unfold collection_fulfils. unfold_build.
    destruct (clock host e) as [e1 start]. simpl.
    rewrite (nonempty_paths_length _ Hne). simpl.
    destruct (settle host (CollectFilesForIndex _ _ _ _) e1)
      as [e2 [files|err]]; simpl.
    + rewrite Hhead. repeat settle_next; try done.
      all: match goal with
           | resp : bool |- _ =>
               destruct resp; simpl; repeat settle_next; done
           end.
    + repeat settle_next; done.
  - by apply (sort_paths_head_same_set _ _ m Hsame).
Qed.

(** The roots [/b] and [/a] resolve to the project root [/a], in either
    order. *)
Lemma buildIndex_project_root_witness :
  map uri_fsPath (default [] folders_b_a) <> []
  /\ (forall p, p ∈ map uri_fsPath (default [] folders_b_a)
                <-> p ∈ map uri_fsPath (default [] folders_a_b))
  /\ rootPaths_requested
       (journal (fst (build_alone scripted 0 folders_b_a config250 fresh quiet)))
     = [Some "/a"]
  /\ head (sort_paths (map uri_fsPath (default [] folders_a_b))) = Some "/a".
Proof.
  assert (forall p, p ∈ map uri_fsPath (default [] folders_b_a)
                    <-> p ∈ map uri_fsPath (default [] folders_a_b)) as Hsame.
  { intros p. simpl. rewrite !elem_of_cons, !elem_of_nil. tauto. }
  split; [discriminate |]. split; [exact Hsame |].
  destruct (buildIndex_project_root scripted 0 folders_b_a folders_a_b
              config250 fresh quiet ltac:(discriminate) Hsame)
    as (projRoot & Hhead & Hroots & _ & _ & Hhead').
  assert (projRoot = "/a") as -> by (vm_compute in Hhead; congruence).
  split; assumption.
Defined.

(** C1, as stated, fails: a second [buildIndex] invoked while the first is
    suspended on its file collection, hence while [isIndexingInProgress()]
    is true, is neither turned away nor held back; both builds reach the
    child build call in turn and both run to completion. *)
Lemma buildIndex_interleaves_counterexample :
  ~ builds_exclusive
      (journal (world (exec scripted two_builds (empty_pool fresh quiet)))).
Proof.
  intros Hexclusive.
  destruct (Hexclusive 0%nat 1%nat ltac:(lia) eq_refl) as [H | H];
    vm_compute in H; discriminate.
Qed.

(** C1 (amended): an invocation of [buildIndex] made while
    [isIndexingInProgress()] is true is not turned away and not held back
    by [buildIndex]: with a non-empty list of workspace folders its first
    synchronous stretch writes the flag and suspends on its own file
    collection, exactly as it does when the flag is down.  The flag is
    written by [buildIndex], never read. *)
Theorem buildIndex_ignores_flag
    {Env} (host : Host LspE Env) tid folders cfg c (e : Env) e1 start :
  _isIndexingInProgress c = true ->
  map uri_fsPath (default [] folders) <> [] ->
  clock host e = (e1, start) ->
  exists k,
    advance host tid (buildIndex folders cfg) (idle c e)
    = ({| controller := withIndexing true c;
          journal :=
            [ (tid, Did (Log None LogInfo
                           "LspController: Starting to build index of project"));
              (tid, Did (SetIndexing true));
              (tid, Awaiting true
                      (CollectFilesForIndex
                         (sort_paths (map uri_fsPath (default [] folders)))
                         folders true (maxIndexSize cfg * 1024 * 1024)%Z)) ];
          env := e1 |},
       Blocked
         (CollectFilesForIndex
            (sort_paths (map uri_fsPath (default [] folders)))
            folders true (maxIndexSize cfg * 1024 * 1024)%Z) k)
    /\ advance host tid (buildIndex folders cfg) (idle (withIndexing false c) e)
       = advance host tid (buildIndex folders cfg) (idle c e).
Proof.
  intros Hflag Hne Hclock. unfold buildIndex. simpl. rewrite Hclock. simpl.
  rewrite (nonempty_paths_length _ Hne). simpl.
  eexists. split; reflexivity.
Qed.

Lemma buildIndex_ignores_flag_witness :
  _isIndexingInProgress busy = true
  /\ map uri_fsPath (default [] folders_b_a) <> []
  /\ clock scripted quiet = (quiet, 0%Q)
  /\ exists k,
       advance scripted 1 (buildIndex folders_b_a config250) (idle busy quiet)
       = ({| controller := withIndexing true busy;
             journal :=
               [ (1%nat, Did (Log None LogInfo
                           "LspController: Starting to build index of project"));
                 (1%nat, Did (SetIndexing true));
                 (1%nat, Awaiting true
                         (CollectFilesForIndex
                            (sort_paths (map uri_fsPath (default [] folders_b_a)))
                            folders_b_a true
                            (maxIndexSize config250 * 1024 * 1024)%Z)) ];
             env := quiet |},
          Blocked
            (CollectFilesForIndex
               (sort_paths (map uri_fsPath (default [] folders_b_a)))
               folders_b_a true (maxIndexSize config250 * 1024 * 1024)%Z) k)
       /\ advance scripted 1 (buildIndex folders_b_a config250)
            (idle (withIndexing false busy) quiet)
          = advance scripted 1 (buildIndex folders_b_a config250)
              (idle busy quiet).
Proof.
  split; [reflexivity |]. split; [discriminate |]. split; [reflexivity |].
  apply (buildIndex_ignores_flag scripted 1 folders_b_a config250 busy quiet
           quiet 0%Q); reflexivity || discriminate.
Defined.

(** Two builds made one after the other do exclude each other. *)
Example builds_in_a_row_exclusive :
  builds_exclusive
    (journal (world (exec scripted two_builds_in_a_row (empty_pool fresh quiet)))).
Proof.
  intros earlier later Hlt Hinvoked. exfalso.
  destruct later as [|[|later]]; vm_compute in Hinvoked; discriminate.
Qed.

(** When builds overlap, the final clause of the first lowers the flag
    under the second: the second build is suspended on its child build
    call and on its usage query while the flag reads [false].  Once both
    have completed the flag is down. *)
Example overlapping_build_sees_flag_down :
  flags_at_awaits 1
    (journal (world (exec scripted first_build_overtakes
                       (empty_pool fresh quiet))))
  = [true; false; false; false]
  /\ _isIndexingInProgress
       (controller (world (exec scripted first_build_overtakes
                             (empty_pool fresh quiet)))) = false.
Proof. split; reflexivity. Qed.

(** ** install *)

(** C4: for every manifest in which the [qserver] entry or the [node]
    entry does not resolve for the host, [install] fulfils with [false]
    without reaching any collaborator: against any surroundings it leaves
    them as they were (no temporary folder, no download, nothing on disk)
    and does nothing but log one line. *)
Theorem install_unavailable
    {Manifest Content Env : Type}
    (getDependency : Manifest -> string -> option Content)
    (join : string -> string -> string) (process : Process)
    (host : Host (FsE +' DownloadE Content) Env)
    tid (manifest : Manifest) c (e : Env) :
  (getDependency manifest "qserver" = None
   \/ getDependency manifest "node" = None) ->
  run host tid (install getDependency join process manifest) (idle c e)
  = ({| controller := c;
        journal :=
          [ (tid, Did (Log (Some "lsp") LogInfo
                         ("Did not find LSP URL for " ++ platform process
                          ++ " " ++ arch process))) ];
        env := e |},
     Fulfilled false).
Proof.
  unfold install.
  destruct (getDependency manifest "qserver") as [server|];
    destruct (getDependency manifest "node") as [runtime|];
    intros Habsent; try reflexivity.
  destruct Habsent; discriminate.
Qed.

Lemma install_unavailable_witness :
  (resolveDependency linux manifest_without_node "qserver" = None
   \/ resolveDependency linux manifest_without_node "node" = None)
  /\ run installer_host 0
       (install (resolveDependency linux) join_segments linux
          manifest_without_node)
       (idle fresh installed_disk)
     = ({| controller := fresh;
           journal :=
             [ (0%nat, Did (Log (Some "lsp") LogInfo
                              "Did not find LSP URL for linux x64")) ];
           env := installed_disk |},
        Fulfilled false).
Proof.
  split; [right; reflexivity |].
  apply (install_unavailable (resolveDependency linux) join_segments linux
           installer_host 0 manifest_without_node fresh installed_disk).
  right. reflexivity.
Defined.

(** ** cleanup *)

Lemma beneath_self folder : beneath folder folder = true.
Proof. unfold beneath. by rewrite String.eqb_refl. Qed.

Lemma not_elem_of_removeFolder folder disk : folder ∉ removeFolder folder disk.
Proof.
  unfold removeFolder. rewrite elem_of_filter, beneath_self.
  by intros [? _].
Qed.

Lemma removeFolder_subseteq folder disk : removeFolder folder disk ⊆ disk.
Proof. unfold removeFolder. intros path. rewrite elem_of_filter. tauto. Qed.

(** With neither path on disk, [cleanup] asks twice and removes nothing. *)
Lemma cleanup_nothing_installed tid c disk :
  serverPath c ∉ disk ->
  nodePath c ∉ disk ->
  cleanup_alone tid c disk
  = ({| controller := c;
        journal :=
          [ (tid, Awaiting (_isIndexingInProgress c) (FsExists (serverPath c)));
            (tid, Awaiting (_isIndexingInProgress c) (FsExists (nodePath c))) ];
        env := disk |},
     Fulfilled true).
Proof.
  intros Hserver Hnode. unfold cleanup_alone, cleanup. simpl.
  rewrite (bool_decide_eq_false_2 _ Hserver). simpl.
  rewrite (bool_decide_eq_false_2 _ Hnode). simpl.
  reflexivity.
Qed.

(** After [cleanup], neither path is on disk, and [cleanup] fulfilled
    with [true]. *)
Lemma cleanup_removes tid c disk :
  snd (cleanup_alone tid c disk) = Fulfilled true
  /\ (serverPath c ∉ after_cleanup tid c disk)
  /\ (nodePath c ∉ after_cleanup tid c disk).
Proof.
  unfold after_cleanup, cleanup_alone, cleanup. simpl.
  destruct (bool_decide (serverPath c ∈ disk)) eqn:Hserver; simpl.
  - destruct (bool_decide (nodePath c ∈ removeFolder (serverPath c) disk))
      eqn:Hnode; simpl; rewrite ?Hnode; simpl.
    + split; [done |]. split.
      * intros [Hin _]%elem_of_difference.
        by apply (not_elem_of_removeFolder (serverPath c) disk).
      * intros [_ Hout]%elem_of_difference. apply Hout.
        by apply elem_of_singleton.
    + apply bool_decide_eq_false in Hnode.
      split; [done |]. split; [apply not_elem_of_removeFolder | done].
  - apply bool_decide_eq_false in Hserver.
    destruct (bool_decide (nodePath c ∈ disk)) eqn:Hnode; simpl;
      rewrite ?Hnode; simpl.
    + split; [done |]. split.
      * by intros [Hin _]%elem_of_difference.
      * intros [_ Hout]%elem_of_difference. apply Hout.
        by apply elem_of_singleton.
    + apply bool_decide_eq_false in Hnode. done.
Qed.

(** C9: over the file system, for every disk: [cleanup] fulfils with
    [true]; a second [cleanup] right after it finds the server path and
    the node path absent, asks for no removal, leaves the disk as the first
    one left it and fulfils with [true]; and when neither path is on disk
    to begin with, the first [cleanup] already does just that. *)
Theorem cleanup_idempotent tid c disk :
  snd (cleanup_alone tid c disk) = Fulfilled true
  /\ (serverPath c ∉ after_cleanup tid c disk)
  /\ (nodePath c ∉ after_cleanup tid c disk)
  /\ cleanup_alone tid c (after_cleanup tid c disk)
     = ({| controller := c;
           journal :=
             [ (tid, Awaiting (_isIndexingInProgress c)
                       (FsExists (serverPath c)));
               (tid, Awaiting (_isIndexingInProgress c)
                       (FsExists (nodePath c))) ];
           env := after_cleanup tid c disk |},
        Fulfilled true)
  /\ (serverPath c ∉ disk ->
      nodePath c ∉ disk ->
      cleanup_alone tid c disk
      = ({| controller := c;
            journal :=
              [ (tid, Awaiting (_isIndexingInProgress c)
                        (FsExists (serverPath c)));
                (tid, Awaiting (_isIndexingInProgress c)
                        (FsExists (nodePath c))) ];
            env := disk |},
         Fulfilled true)).
Proof.
  destruct (cleanup_removes tid c disk) as (Htrue & Hserver & Hnode).
  repeat split; [done.. | |].
  - by apply cleanup_nothing_installed.
  - apply cleanup_nothing_installed.
Qed.

Lemma cleanup_idempotent_witness :
  (serverPath fresh ∉ (∅ : gset string))
  /\ (nodePath fresh ∉ (∅ : gset string))
  /\ cleanup_alone 0 fresh ∅
     = ({| controller := fresh;
           journal :=
             [ (0%nat, Awaiting false (FsExists "/ext/resources/qserver"));
               (0%nat, Awaiting false (FsExists "/ext/resources/node")) ];
           env := ∅ |},
        Fulfilled true)
  /\ snd (cleanup_alone 0 fresh installed_disk) = Fulfilled true
  /\ cleanup_alone 0 fresh (after_cleanup 0 fresh installed_disk)
     = ({| controller := fresh;
           journal :=
             [ (0%nat, Awaiting false (FsExists "/ext/resources/qserver"));
               (0%nat, Awaiting false (FsExists "/ext/resources/node")) ];
           env := after_cleanup 0 fresh installed_disk |},
        Fulfilled true).
Proof.
  split; [apply not_elem_of_empty |]. split; [apply not_elem_of_empty |].
  split.
  - apply (cleanup_idempotent 0 fresh ∅); apply not_elem_of_empty.
  - destruct (cleanup_idempotent 0 fresh installed_disk)
      as (Htrue & _ & _ & Hagain & _).
    split; assumption.
Defined.

(** On the sample disk, [cleanup] removes the server directory with what
    is beneath it and the node binary, and nothing else. *)
Example cleanup_installed_disk :
  after_cleanup 0 fresh installed_disk = {[ "/ext/package.json" ]}.
Proof. by vm_compute. Qed.

(** * Further properties *)

(** ** More on query and queryInlineProjectContext *)

(** X1.  [query] has no [catch]: when the vector-index query rejects,
    [query] rejects to its caller with the same error. *)
Theorem query_propagates_rejection
    {Env} (host : Host LspE Env) process tid s (w : World LspE Env) e' error :
  settle host (QueryVectorIndex s) (env w) = (e', Rejected error) ->
  snd (run host tid (query process s) w) = Rejected error.
Proof. intros Hs. unfold query. simpl. by rewrite Hs. Qed.

Lemma query_propagates_rejection_witness :
  settle scripted (QueryVectorIndex "q")
    (env (idle (E := LspE) fresh channel_down))
  = (tick channel_down, Rejected channel_closed)
  /\ snd (run scripted 0 (query linux "q") (idle fresh channel_down))
     = Rejected channel_closed.
Proof.
  split; [reflexivity |].
  apply (query_propagates_rejection scripted linux 0 "q" _ (tick channel_down)).
  reflexivity.
Defined.

(** X2.  [query] returns exactly one record per chunk, in the order of
    the chunks: none is dropped, merged or reordered. *)
Theorem query_one_record_per_chunk
    {Env} (host : Host LspE Env) process tid s (w : World LspE Env) e' chunks :
  settle host (QueryVectorIndex s) (env w) = (e', Fulfilled (Some chunks)) ->
  exists docs,
    snd (run host tid (query process s) w) = Fulfilled docs
    /\ length docs = length chunks
    /\ forall i chunk,
         chunks !! i = Some chunk -> docs !! i = Some (pushed process chunk).
Proof.
  intros Hs. exists (map (pushed process) chunks). split; [| split].
  - rewrite (run_query _ _ _ _ _ _ _ Hs). by rewrite forEach_push_map.
  - apply length_map.
  - intros i chunk Hi.
    change (map (pushed process) chunks) with (pushed process <$> chunks).
    by rewrite list_lookup_fmap, Hi.
Qed.

Lemma query_one_record_per_chunk_witness :
  settle scripted (QueryVectorIndex "q")
    (env (idle (E := LspE) fresh
            (answering (Some [chunk_python; chunk_unknown; chunk_ctx_raw]))))
  = (tick (answering (Some [chunk_python; chunk_unknown; chunk_ctx_raw])),
     Fulfilled (Some [chunk_python; chunk_unknown; chunk_ctx_raw]))
  /\ exists docs,
       snd (run scripted 0 (query linux "q")
              (idle fresh
                 (answering (Some [chunk_python; chunk_unknown; chunk_ctx_raw]))))
       = Fulfilled docs
       /\ map text docs = ["RAW"; "C"; "CTX"].
Proof.
  split; [reflexivity |].
  destruct (query_one_record_per_chunk scripted linux 0 "q"
              (idle fresh
                 (answering (Some [chunk_python; chunk_unknown; chunk_ctx_raw])))
              (tick (answering (Some [chunk_python; chunk_unknown; chunk_ctx_raw])))
              [chunk_python; chunk_unknown; chunk_ctx_raw] eq_refl)
    as (docs & Hrun & _ & _).
  exists docs. split; [exact Hrun |].
  injection Hrun as <-. reflexivity.
Defined.

(** X3.  The record of a chunk carries a language tag exactly when the
    chunk's programmingLanguage is a non-empty string other than
    [unknown], and the tag then names that language. *)
Theorem query_language_tag
    {Env} (host : Host LspE Env) process tid s (w : World LspE Env) e'
    chunks i chunk :
  settle host (QueryVectorIndex s) (env w) = (e', Fulfilled (Some chunks)) ->
  chunks !! i = Some chunk ->
  exists docs doc,
    snd (run host tid (query process s) w) = Fulfilled docs
    /\ docs !! i = Some doc
    /\ forall lang,
         rtd_programmingLanguage doc = Some {| languageName := lang |}
         <-> (programmingLanguage chunk = Some lang
              /\ lang <> EmptyString /\ lang <> "unknown").
Proof.
  intros Hs Hi.
  destruct (run_query_docs host process tid s w e' chunks i chunk Hs Hi)
    as (docs & Hrun & Hdoc).
  exists docs, (pushed process chunk). split; [done |]. split; [done |].
  intros lang. rewrite language_pushed.
  destruct (programmingLanguage chunk) as [l|]; simpl.
  - destruct (String.eqb_spec l EmptyString) as [-> | Hne]; simpl.
    + split; [done | by intros ([= <-] & ? & _)].
    + destruct (String.eqb_spec l "unknown") as [-> | Hknown]; simpl.
      * split; [done | by intros ([= <-] & _ & ?)].
      * split.
        -- by intros [= ->].
        -- by intros ([= ->] & _).
  - split; [done | by intros (? & _)].
Qed.

Lemma query_language_tag_witness :
  settle scripted (QueryVectorIndex "q")
    (env (idle (E := LspE) fresh (answering (Some [chunk_python]))))
  = (tick (answering (Some [chunk_python])), Fulfilled (Some [chunk_python]))
  /\ [chunk_python] !! 0%nat = Some chunk_python
  /\ exists docs doc,
       snd (run scripted 0 (query linux "q")
              (idle fresh (answering (Some [chunk_python]))))
       = Fulfilled docs
       /\ docs !! 0%nat = Some doc
       /\ rtd_programmingLanguage doc = Some {| languageName := "python" |}.
Proof.
  do 2 (split; [reflexivity |]).
  destruct (query_language_tag scripted linux 0 "q"
              (idle fresh (answering (Some [chunk_python])))
              (tick (answering (Some [chunk_python]))) [chunk_python] 0
              chunk_python eq_refl eq_refl)
    as (docs & doc & Hrun & Hdoc & Htag).
  exists docs, doc. repeat split; [done.. |].
  apply Htag. repeat split; discriminate || reflexivity.
Defined.

(** X4.  [queryInlineProjectContext] never rejects: it hands back the
    client's answer untouched and logs nothing when the client fulfils;
    when the client throws it fulfils with the empty sequence, and logs one
    error line carrying the message if what was thrown is an [Error] and
    nothing at all otherwise. *)
Theorem queryInlineProjectContext_never_rejects
    {Env} (host : Host LspE Env) tid q path target c (e : Env) :
  snd (run host tid (queryInlineProjectContext q path target) (idle c e))
  = Fulfilled
      match snd (settle host (QueryInlineProjectContext q path target) e) with
      | Fulfilled results => results
      | Rejected _ => []
      end
  /\ logs_of
       (effects_of tid
          (journal
             (fst (run host tid (queryInlineProjectContext q path target)
                     (idle c e)))))
     = match snd (settle host (QueryInlineProjectContext q path target) e) with
       | Rejected (ErrorObj _ message) =>
           [ (LogError,
              "unexpected error while querying inline project context, e="
              ++ message) ]
       | _ => []
       end.
Proof.
  unfold queryInlineProjectContext. simpl.
  destruct (settle host (QueryInlineProjectContext q path target) e)
    as [e' [results | [name message | rendered]]]; simpl;
    rewrite ?Nat.eqb_refl; done.
Qed.

(** ** More on buildIndex *)

(** X5.  With no workspace folder ([workspaceFolders] undefined or empty),
    [buildIndex] logs that it skips and returns: it reaches no
    collaborator, emits no event and does not touch the flag, which keeps
    whatever value it had. *)
Theorem buildIndex_empty_workspace
    {Env} (host : Host LspE Env) tid folders cfg c (e : Env) :
  map uri_fsPath (default [] folders) = [] ->
  build_alone host tid folders cfg c e
  = ({| controller := c;
        journal :=
          [ (tid, Did (Log None LogInfo
                         "LspController: Starting to build index of project"));
            (tid, Did (Log None LogInfo
                         "LspController: Skipping building index. No projects found in workspace")) ];
        env := fst (clock host e) |},
     Fulfilled tt).
Proof.
  intros Hempty. unfold build_alone, buildIndex. simpl.
  destruct (clock host e) as [e1 start]. simpl. by rewrite Hempty.
Qed.

Lemma buildIndex_empty_workspace_witness :
  map uri_fsPath (default [] None) = []
  /\ _isIndexingInProgress
       (controller (fst (build_alone scripted 0 None config250 busy quiet)))
     = true
  /\ snd (build_alone scripted 0 None config250 busy quiet) = Fulfilled tt.
Proof.
  split; [reflexivity |].
  rewrite (buildIndex_empty_workspace scripted 0 None config250 busy quiet
             eq_refl).
  split; reflexivity.
Defined.

(** X6.  When file collection fulfils, the child build call answers true
    and the usage query that follows fulfils, [buildIndex] emits one event,
    with result [Succeeded], the number of collected files, their total
    size in MB, the usage figures when the server reported them and the
    start URL of the configuration, and no reason.  The collection was
    asked with the budget [maxIndexSize] MB in bytes, and the child build
    call with the paths of the collected files in order and the mode [all]
    or [default].  Sizes are whole numbers within 2^53, the range in which
    the sums and products of doubles the code computes are exact. *)
Theorem buildIndex_reports_success
    {Env} (host : Host LspE Env) tid folders cfg c (e : Env)
    e1 start e2 files e3 e4 usage e5 t :
  map uri_fsPath (default [] folders) <> [] ->
  (Z.abs (maxIndexSize cfg) <= 2 ^ 53)%Z ->
  Forall (fun file => (0 <= fileSizeBytes file)%Z) files ->
  (totalSize files <= 2 ^ 53)%Z ->
  clock host e = (e1, start) ->
  settle host
    (CollectFilesForIndex (sort_paths (map uri_fsPath (default [] folders)))
       folders true (maxIndexSize cfg * 1024 * 1024)%Z) e1
  = (e2, Fulfilled files) ->
  settle host
    (ClientBuildIndex (map fileUri_fsPath files)
       (head (sort_paths (map uri_fsPath (default [] folders))))
       (if isVectorIndexEnabled cfg then "all" else "default")) e2
  = (e3, Fulfilled true) ->
  settle host GetLspServerUsage e3 = (e4, Fulfilled usage) ->
  clock host e4 = (e5, t) ->
  events_of (effects_of tid (journal (fst (build_alone host tid folders cfg c e))))
  = [ {| duration := (t - start)%Q;
         result := Succeeded;
         amazonqIndexFileCount := length files;
         amazonqIndexMemoryUsageInMB :=
           option_map (fun u => (memoryUsage u / MB)%Q) usage;
         amazonqIndexCpuUsagePercentage := option_map cpuUsage usage;
         amazonqIndexFileSizeInMB := (inject_Z (totalSize files) / MB)%Q;
         credentialStartUrl := startUrl cfg;
         reason := None;
         reasonDesc := None |} ]
  /\ collect_requests (journal (fst (build_alone host tid folders cfg c e)))
     = [ (true, (maxIndexSize cfg * 1024 * 1024)%Z) ]
  /\ build_requests (journal (fst (build_alone host tid folders cfg c e)))
     = [ (map fileUri_fsPath files,
          head (sort_paths (map uri_fsPath (default [] folders))),
          if isVectorIndexEnabled cfg then "all" else "default") ].
Proof.
  intros Hne _ _ _ Hstart Hcollect Hbuild Husage Hclock. unfold_build.
  rewrite Hstart. simpl. rewrite (nonempty_paths_length _ Hne). simpl.
  rewrite Hcollect. simpl. rewrite Hbuild. simpl. rewrite Husage. simpl.
  rewrite Hclock. simpl.
  settle_next; rewrite ?Nat.eqb_refl; done.
Qed.

Lemma buildIndex_reports_success_witness :
  map uri_fsPath (default [] folders_b_a) <> []
  /\ (Z.abs (maxIndexSize config250) <= 2 ^ 53)%Z
  /\ Forall (fun file => (0 <= fileSizeBytes file)%Z) two_files
  /\ (totalSize two_files <= 2 ^ 53)%Z
  /\ settle scripted GetLspServerUsage (tick (tick indexing_ok))
     = (tick (tick (tick indexing_ok)), Fulfilled (Some usage_sample))
  /\ clock scripted indexing_ok = (indexing_ok, 0%Q)
  /\ settle scripted
       (CollectFilesForIndex
          (sort_paths (map uri_fsPath (default [] folders_b_a)))
          folders_b_a true (maxIndexSize config250 * 1024 * 1024)%Z)
       indexing_ok
     = (tick indexing_ok, Fulfilled two_files)
  /\ map amazonqIndexFileCount
       (events_of
          (effects_of 0
             (journal (fst (build_alone scripted 0 folders_b_a config250 fresh
                              indexing_ok)))))
     = [2%nat]
  /\ build_requests
       (journal (fst (build_alone scripted 0 folders_b_a config250 fresh
                        indexing_ok)))
     = [ (["/a/main.py"; "/b/lib.ts"], Some "/a", "all") ].
Proof.
  assert (Z.abs (maxIndexSize config250) <= 2 ^ 53)%Z as Hbudget
    by (by vm_compute).
  assert (Forall (fun file => (0 <= fileSizeBytes file)%Z) two_files) as Hsizes
    by (repeat constructor; by vm_compute).
  assert (totalSize two_files <= 2 ^ 53)%Z as Htotal by (by vm_compute).
  split; [discriminate |]. split; [exact Hbudget |]. split; [exact Hsizes |].
  split; [exact Htotal |]. do 3 (split; [reflexivity |]).
  destruct (buildIndex_reports_success scripted 0 folders_b_a config250 fresh
              indexing_ok indexing_ok 0%Q (tick indexing_ok) two_files
              (tick (tick indexing_ok)) (tick (tick (tick indexing_ok)))
              (Some usage_sample) (tick (tick (tick indexing_ok)))
              (0 + 1 + 1 + 1)%Q
              ltac:(discriminate) Hbudget Hsizes Htotal
              eq_refl eq_refl eq_refl eq_refl eq_refl)
    as (Hevents & _ & Hbuild).
  rewrite Hevents, Hbuild. split; reflexivity.
Defined.

(** X7.  When the child build call answers false, [buildIndex] makes no
    usage query and emits one event, with result [Failed], reason
    [Unknown], no description, and zero for the file count and size. *)
Theorem buildIndex_child_failure
    {Env} (host : Host LspE Env) tid folders cfg c (e : Env)
    e1 start e2 files e3 e4 t :
  map uri_fsPath (default [] folders) <> [] ->
  clock host e = (e1, start) ->
  settle host
    (CollectFilesForIndex (sort_paths (map uri_fsPath (default [] folders)))
       folders true (maxIndexSize cfg * 1024 * 1024)%Z) e1
  = (e2, Fulfilled files) ->
  settle host
    (ClientBuildIndex (map fileUri_fsPath files)
       (head (sort_paths (map uri_fsPath (default [] folders))))
       (if isVectorIndexEnabled cfg then "all" else "default")) e2
  = (e3, Fulfilled false) ->
  clock host e3 = (e4, t) ->
  events_of (effects_of tid (journal (fst (build_alone host tid folders cfg c e))))
  = [ {| duration := (t - start)%Q;
         result := Failed;
         amazonqIndexFileCount := 0;
         amazonqIndexMemoryUsageInMB := None;
         amazonqIndexCpuUsagePercentage := None;
         amazonqIndexFileSizeInMB := 0%Q;
         credentialStartUrl := None;
         reason := Some "Unknown";
         reasonDesc := None |} ]
  /\ lsp_calls tid (journal (fst (build_alone host tid folders cfg c e)))
     = [CallCollect; CallBuildIndex; CallRepoMap].
Proof.
  intros Hne Hstart Hcollect Hbuild Hclock. unfold_build.
  rewrite Hstart. simpl. rewrite (nonempty_paths_length _ Hne). simpl.
  rewrite Hcollect. simpl. rewrite Hbuild. simpl. rewrite Hclock. simpl.
  settle_next; rewrite ?Nat.eqb_refl; done.
Qed.

Lemma buildIndex_child_failure_witness :
  map uri_fsPath (default [] folders_b_a) <> []
  /\ settle scripted
       (ClientBuildIndex (map fileUri_fsPath two_files)
          (head (sort_paths (map uri_fsPath (default [] folders_b_a))))
          (if isVectorIndexEnabled config250 then "all" else "default"))
       (tick child_fails)
     = (tick (tick child_fails), Fulfilled false)
  /\ map reason
       (events_of
          (effects_of 0
             (journal (fst (build_alone scripted 0 folders_b_a config250 fresh
                              child_fails)))))
     = [Some "Unknown"]
  /\ lsp_calls 0
       (journal (fst (build_alone scripted 0 folders_b_a config250 fresh
                        child_fails)))
     = [CallCollect; CallBuildIndex; CallRepoMap].
Proof.
  split; [discriminate |]. split; [reflexivity |].
  destruct (buildIndex_child_failure scripted 0 folders_b_a config250 fresh
              child_fails child_fails 0%Q (tick child_fails) two_files
              (tick (tick child_fails)) (tick (tick child_fails))
              (0 + 1 + 1)%Q
              ltac:(discriminate) eq_refl eq_refl eq_refl eq_refl)
    as (Hevents & Hcalls).
  rewrite Hevents, Hcalls. split; reflexivity.
Defined.

(** X8.  When the child build call answers true and the usage query that
    follows throws, the [catch] clause takes over: the one event of the
    attempt has result [Failed] and the reason and description of the
    usage error, although the index was built; no [Succeeded] event is
    emitted. *)
Theorem buildIndex_usage_failure
    {Env} (host : Host LspE Env) tid folders cfg c (e : Env)
    e1 start e2 files e3 e4 error e5 t :
  map uri_fsPath (default [] folders) <> [] ->
  clock host e = (e1, start) ->
  settle host
    (CollectFilesForIndex (sort_paths (map uri_fsPath (default [] folders)))
       folders true (maxIndexSize cfg * 1024 * 1024)%Z) e1
  = (e2, Fulfilled files) ->
  settle host
    (ClientBuildIndex (map fileUri_fsPath files)
       (head (sort_paths (map uri_fsPath (default [] folders))))
       (if isVectorIndexEnabled cfg then "all" else "default")) e2
  = (e3, Fulfilled true) ->
  settle host GetLspServerUsage e3 = (e4, Rejected error) ->
  clock host e4 = (e5, t) ->
  events_of (effects_of tid (journal (fst (build_alone host tid folders cfg c e))))
  = [ failure_event (t - start)%Q error ]
  /\ _isIndexingInProgress
       (controller (fst (build_alone host tid folders cfg c e))) = false.
Proof.
  intros Hne Hstart Hcollect Hbuild Husage Hclock. unfold_build.
  rewrite Hstart. simpl. rewrite (nonempty_paths_length _ Hne). simpl.
  rewrite Hcollect. simpl. rewrite Hbuild. simpl. rewrite Husage. simpl.
  rewrite Hclock. simpl.
  settle_next; rewrite ?Nat.eqb_refl; done.
Qed.

Lemma buildIndex_usage_failure_witness :
  map uri_fsPath (default [] folders_b_a) <> []
  /\ settle scripted GetLspServerUsage (tick (tick usage_fails))
     = (tick (tick (tick usage_fails)), Rejected channel_closed)
  /\ map result
       (events_of
          (effects_of 0
             (journal (fst (build_alone scripted 0 folders_b_a config250 fresh
                              usage_fails)))))
     = [Failed].
Proof.
  split; [discriminate |]. split; [reflexivity |].
  destruct (buildIndex_usage_failure scripted 0 folders_b_a config250 fresh
              usage_fails usage_fails 0%Q (tick usage_fails) two_files
              (tick (tick usage_fails)) (tick (tick (tick usage_fails)))
              channel_closed (tick (tick (tick usage_fails)))
              (0 + 1 + 1 + 1)%Q
              ltac:(discriminate) eq_refl eq_refl eq_refl eq_refl eq_refl)
    as (Hevents & _).
  rewrite Hevents. reflexivity.
Defined.

(** X9.  Every build attempt (an invocation with a non-empty list of
    workspace folders) emits exactly one telemetry event, however the
    collaborators settle. *)
Theorem buildIndex_one_event_per_attempt
    {Env} (host : Host LspE Env) tid folders cfg c (e : Env) :
  map uri_fsPath (default [] folders) <> [] ->
  length
    (events_of
       (effects_of tid (journal (fst (build_alone host tid folders cfg c e)))))
  = 1%nat.
Proof.
  intros Hne. unfold_build.
  settle_next. rewrite (nonempty_paths_length _ Hne). simpl.
  repeat settle_next; rewrite ?Nat.eqb_refl; simpl; try done.
  all: match goal with
       | resp : bool |- _ =>
           destruct resp; simpl; repeat settle_next;
           rewrite ?Nat.eqb_refl; done
       end.
Qed.

Lemma buildIndex_one_event_per_attempt_witness :
  map uri_fsPath (default [] folders_b_a) <> []
  /\ length
       (events_of
          (effects_of 0
             (journal (fst (build_alone scripted 0 folders_b_a config250 fresh
                              channel_down)))))
     = 1%nat.
Proof.
  split; [discriminate |].
  apply (buildIndex_one_event_per_attempt scripted 0 folders_b_a config250
           fresh channel_down).
  discriminate.
Defined.

(** X10.  The calls of a build attempt come in a fixed order: the file
    collection first; the child build call exactly when the collection has
    fulfilled; the usage query exactly when the child build call was made
    and answered true; and the retrieval of the repo map last, once, on
    every outcome. *)
Theorem buildIndex_call_order
    {Env} (host : Host LspE Env) tid folders cfg c (e : Env) :
  map uri_fsPath (default [] folders) <> [] ->
  lsp_calls tid (journal (fst (build_alone host tid folders cfg c e)))
  = ([CallCollect]
     ++ (if collection_fulfils host folders cfg e then [CallBuildIndex] else [])
     ++ (if build_answers_true host folders cfg e then [CallUsage] else [])
     ++ [CallRepoMap])%list.
Proof.
  intros Hne. unfold collection_fulfils, build_answers_true. unfold_build.
  destruct (clock host e) as [e1 start]. simpl.
  rewrite (nonempty_paths_length _ Hne). simpl.
  destruct (settle host (CollectFilesForIndex _ _ _ _) e1)
    as [e2 [files|err]]; simpl.
  - destruct (settle host (ClientBuildIndex _ _ _) e2) as [e3 [[|]|err]];
      simpl; repeat settle_next; rewrite ?Nat.eqb_refl; done.
  - repeat settle_next; rewrite ?Nat.eqb_refl; done.
Qed.

Lemma buildIndex_call_order_witness :
  map uri_fsPath (default [] folders_b_a) <> []
  /\ lsp_calls 0
       (journal (fst (build_alone scripted 0 folders_b_a config250 fresh
                        collect_fails)))
     = [CallCollect; CallRepoMap]
  /\ lsp_calls 0
       (journal (fst (build_alone scripted 0 folders_b_a config250 fresh
                        child_fails)))
     = [CallCollect; CallBuildIndex; CallRepoMap]
  /\ lsp_calls 0
       (journal (fst (build_alone scripted 0 folders_b_a config250 fresh
                        indexing_ok)))
     = [CallCollect; CallBuildIndex; CallUsage; CallRepoMap].
Proof.
  split; [discriminate |].
  rewrite (buildIndex_call_order scripted 0 folders_b_a config250 fresh
             collect_fails ltac:(discriminate)).
  rewrite (buildIndex_call_order scripted 0 folders_b_a config250 fresh
             child_fails ltac:(discriminate)).
  rewrite (buildIndex_call_order scripted 0 folders_b_a config250 fresh
             indexing_ok ltac:(discriminate)).
  repeat split.
Defined.

(** ** The flag under interleaving *)

Lemma quiet_flag_bind {E A B} (m : Async E A) (f : A -> Async E B) :
  quiet_flag m -> (forall a, quiet_flag (f a)) -> quiet_flag (bind m f).
Proof.
  intros Hm Hf. induction Hm; simpl; try (constructor; auto); auto.
Qed.

Lemma lowers_flag_bind {E A B} (m : Async E A) (f : A -> Async E B) :
  lowers_flag m -> (forall a, quiet_flag (f a)) -> lowers_flag (bind m f).
Proof.
  intros Hm Hf. induction Hm; simpl.
  - apply lowers_here. by apply quiet_flag_bind.
  - by apply lowers_act.
  - apply lowers_this. auto.
  - apply lowers_now. auto.
  - apply lowers_await. auto.
Qed.

(** A final clause that lowers the flag makes the whole [try] statement
    lower it, whatever the body does. *)
Lemma lowers_flag_try_finally {E A} (body : Async E A) fin :
  lowers_flag fin -> lowers_flag (try_finally body fin).
Proof.
  intros Hfin.
  induction body as [a|err|x k IH|k IH|k IH|X c k IH]; simpl.
  - apply lowers_flag_bind; [done | constructor].
  - apply lowers_flag_bind; [done | constructor].
  - by apply lowers_act.
  - by apply lowers_this.
  - by apply lowers_now.
  - by apply lowers_await.
Qed.

Lemma lowers_flag_buildIndex_finally : lowers_flag buildIndex_finally.
Proof.
  unfold buildIndex_finally. simpl. apply lowers_here.
  apply quiet_await. intros [m|err]; simpl; repeat constructor.
Qed.

(** [buildIndex] either leaves the flag alone (no workspace folder) or
    lowers it last. *)
Lemma buildIndex_flag_discipline folders cfg :
  lowers_flag (buildIndex folders cfg) \/ quiet_flag (buildIndex folders cfg).
Proof.
  unfold buildIndex, getLogger, act, performance_now. cbn [bind].
  destruct (length (map uri_fsPath (default [] folders)) =? 0)%nat.
  - right. repeat constructor.
  - left. apply lowers_act, lowers_now. intros start.
    apply lowers_flag_try_finally, lowers_flag_buildIndex_finally.
Qed.

Section FlagInvariant.

Context {E : Type -> Type} {Env : Type}.
Variable host : Host E Env.

Lemma advance_quiet {A} tid (p : Async E A) :
  quiet_flag p ->
  forall w,
    _isIndexingInProgress (controller (fst (advance host tid p w)))
    = _isIndexingInProgress (controller w)
    /\ past_lowering (snd (advance host tid p w)).
Proof.
  induction 1 as [a|err|topic level message k Hk IH|event k Hk IH
                  |k Hk IH|k Hk IH|X c k Hk IH]; intros w; simpl.
  - done.
  - done.
  - apply (IH (note tid (Did (Log topic level message)) w)).
  - apply (IH (note tid (Did (Emit event)) w)).
  - apply IH.
  - destruct (clock host (env w)) as [e' t]. apply (IH t (withEnv e' w)).
  - done.
Qed.

Lemma advance_lowers {A} tid (p : Async E A) :
  lowers_flag p ->
  forall w,
    before_lowering (snd (advance host tid p w))
    \/ (past_lowering (snd (advance host tid p w))
        /\ _isIndexingInProgress (controller (fst (advance host tid p w)))
           = false).
Proof.
  induction 1 as [k Hk|x k Hk IH|k Hk IH|k Hk IH|X c k Hk IH]; intros w; simpl.
  - right.
    destruct (advance_quiet tid k Hk (perform tid (SetIndexing false) w))
      as [Hflag Hpast].
    split; [exact Hpast | exact Hflag].
  - apply IH.
  - apply IH.
  - destruct (clock host (env w)) as [e' t]. apply (IH t (withEnv e' w)).
  - by left.
Qed.

Lemma landed_controller tid (ws : World E Env * Susp E unit) :
  controller (fst (landed tid ws)) = controller (fst ws)
  /\ snd (landed tid ws) = snd ws.
Proof. destruct ws as [w [r|X c k]]; done. Qed.

Lemma flag_invariant_step (pool : Pool (E := E) (Env := Env)) s :
  flag_invariant pool ->
  match s with
  | Invoke p => lowers_flag p \/ quiet_flag p
  | Resume _ => True
  end ->
  flag_invariant (sched_step host pool s).
Proof.
  intros (phases & Hphases & Hflag) Hs.
  destruct s as [p | tid]; simpl.
  - set (w0 := note (length (tasks pool))
                 (Invoked (_isIndexingInProgress (controller (world pool))))
                 (world pool)).
    destruct (landed_controller (length (tasks pool))
                (advance host (length (tasks pool)) p w0)) as [Hc Hsnd].
    destruct (landed (length (tasks pool))
                (advance host (length (tasks pool)) p w0)) as [w' t] eqn:Hl.
    simpl in Hc, Hsnd. subst t. simpl.
    destruct Hs as [Hlow | Hquiet].
    + destruct (advance_lowers (length (tasks pool)) p Hlow w0)
        as [Hbefore | [Hpast Hdown]].
      * exists (phases ++ [true])%list. split.
        { apply Forall2_app; [done | by constructor]. }
        intros _. apply elem_of_app. right. by apply list_elem_of_singleton.
      * exists (phases ++ [false])%list. split.
        { apply Forall2_app; [done | by constructor]. }
        simpl. rewrite Hc, Hdown. discriminate.
    + destruct (advance_quiet (length (tasks pool)) p Hquiet w0)
        as [Hsame Hpast].
      exists (phases ++ [false])%list. split.
      { apply Forall2_app; [done | by constructor]. }
      simpl. rewrite Hc, Hsame. intros Hup. apply elem_of_app. left. by apply Hflag.
  - destruct (tasks pool !! tid) as [[r | X c k] |] eqn:Htask;
      [by exists phases | | by exists phases].
    destruct (settle host c (env (world pool))) as [e' r].
    set (w0 := withEnv e' (world pool)).
    destruct (landed_controller tid (advance host tid (k r) w0)) as [Hc Hsnd].
    destruct (landed tid (advance host tid (k r) w0)) as [w' t] eqn:Hl.
    simpl in Hc, Hsnd. subst t. simpl.
    destruct (Forall2_lookup_r _ _ _ _ _ Hphases Htask)
      as (phase & Hphase & Hin).
    destruct phase; simpl in Hin.
    + destruct (advance_lowers tid (k r) (Hin r) w0)
        as [Hbefore | [Hpast Hdown]].
      * exists (<[tid := true]> phases). split.
        { by apply Forall2_insert. }
        intros _. rewrite list_insert_id by done.
        by eapply list_elem_of_lookup_2.
      * exists (<[tid := false]> phases). split.
        { by apply Forall2_insert. }
        simpl. rewrite Hc, Hdown. discriminate.
    + destruct (advance_quiet tid (k r) (Hin r) w0) as [Hsame Hpast].
      exists (<[tid := false]> phases). split.
      { by apply Forall2_insert. }
      simpl. rewrite Hc, Hsame. intros Hup. rewrite list_insert_id by done.
      by apply Hflag.
Qed.

Lemma flag_invariant_exec schedule (pool : Pool (E := E) (Env := Env)) :
  flag_invariant pool ->
  Forall (fun p => lowers_flag p \/ quiet_flag p) (invocations schedule) ->
  flag_invariant (exec host schedule pool).
Proof.
  revert pool. induction schedule as [|s schedule IH]; intros pool Hinv Hall;
    [done |].
  simpl. apply IH.
  - apply flag_invariant_step; [done |].
    destruct s; [| done]. simpl in Hall. by apply Forall_cons in Hall as [? _].
  - destruct s; simpl in Hall; [by apply Forall_cons in Hall as [_ ?] | done].
Qed.

Lemma flag_invariant_up (pool : Pool (E := E) (Env := Env)) :
  flag_invariant pool ->
  _isIndexingInProgress (controller (world pool)) = true ->
  exists tid s, tasks pool !! tid = Some s /\ is_finished s = false.
Proof.
  intros (phases & Hphases & Hflag) Hup.
  apply Hflag, list_elem_of_lookup in Hup as [tid Htid].
  destruct (Forall2_lookup_l _ _ _ _ _ Hphases Htid) as (s & Hs & Hin).
  exists tid, s. split; [done |]. by destruct s.
Qed.

End FlagInvariant.

(** C2, as stated, fails when invocations overlap.  With the first build
    resumed to its end while the second is suspended on its file
    collection, the second build, made with a non-empty list of workspace
    folders, awaits its child build call and its usage query while the
    flag reads [false]: the flag is not [true] for the duration of that
    build.  And with the second invocation made while the first is in its
    final clause, the first completes and the flag is left [true]. *)
Lemma buildIndex_flag_down_counterexample :
  map uri_fsPath (default [] folders_b_a) <> []
  /\ flags_at_awaits 1
       (journal (world (exec scripted first_build_overtakes
                          (empty_pool fresh quiet))))
     = [true; false; false; false]
  /\ lsp_calls 1
       (journal (world (exec scripted first_build_overtakes
                          (empty_pool fresh quiet))))
     = [CallCollect; CallBuildIndex; CallUsage; CallRepoMap]
  /\ ~ Forall (eq true)
        (removelast
           (flags_at_awaits 1
              (journal (world (exec scripted first_build_overtakes
                                 (empty_pool fresh quiet))))))
  /\ is_finished
       <$> tasks (exec scripted second_build_during_snapshot
                    (empty_pool fresh quiet)) !! 0%nat
     = Some true
  /\ _isIndexingInProgress
       (controller (world (exec scripted second_build_during_snapshot
                             (empty_pool fresh quiet)))) = true.
Proof.
  split; [discriminate |]. do 2 (split; [reflexivity |]).
  split; [| split; reflexivity].
  intros Hall. vm_compute in Hall.
  apply Forall_cons in Hall as [_ Hall].
  apply Forall_cons in Hall as [Hfalse _]. discriminate.
Qed.

(** C2 (amended): for every invocation of [buildIndex] with a non-empty
    list of workspace folders that runs with no other invocation
    interleaved, against any surroundings: the flag is written twice,
    [true] and then [false]; it reads [true] at every suspension of the
    build but the last, which is the retrieval in the final clause and
    reads [false]; and it is [false] when the invocation completes,
    however the collaborators settled.  When invocations overlap the flag
    is still never stuck at [true]: under any interleaving of any number of
    invocations on a controller whose flag starts [false], whenever the
    flag reads [true] some invocation has not completed, and once every
    invocation has completed the flag is [false]. *)
Theorem buildIndex_flag_released
    {Env} (host : Host LspE Env) :
  (forall tid folders cfg c (e : Env),
     map uri_fsPath (default [] folders) <> [] ->
     _isIndexingInProgress
       (controller (fst (build_alone host tid folders cfg c e))) = false
     /\ flag_writes
          (effects_of tid (journal (fst (build_alone host tid folders cfg c e))))
        = [true; false]
     /\ Forall (eq true)
          (removelast
             (flags_at_awaits tid
                (journal (fst (build_alone host tid folders cfg c e)))))
     /\ last (flags_at_awaits tid
                (journal (fst (build_alone host tid folders cfg c e))))
        = Some false
     /\ (1 < length (flags_at_awaits tid
                       (journal (fst (build_alone host tid folders cfg c e)))))%nat)
  /\ (forall schedule c (e : Env),
        _isIndexingInProgress c = false ->
        Forall (fun p => exists folders cfg, p = buildIndex folders cfg)
          (invocations schedule) ->
        (_isIndexingInProgress
           (controller (world (exec host schedule (empty_pool c e)))) = true ->
         exists tid s,
           tasks (exec host schedule (empty_pool c e)) !! tid = Some s
           /\ is_finished s = false)
        /\ (forallb is_finished (tasks (exec host schedule (empty_pool c e)))
            = true ->
            _isIndexingInProgress
              (controller (world (exec host schedule (empty_pool c e))))
            = false)).
Proof.
  split.
  - intros tid folders cfg c e Hne. by apply build_alone_flag_released.
  - intros schedule c e Hdown Hbuilds.
    assert (flag_invariant (exec host schedule (empty_pool c e))) as Hinv.
    { apply flag_invariant_exec.
      - exists []. split; [constructor |]. simpl. rewrite Hdown. discriminate.
      - eapply Forall_impl; [exact Hbuilds |].
        intros p (folders & cfg & ->). apply buildIndex_flag_discipline. }
    split; [by apply flag_invariant_up |].
    intros Hall.
    destruct (_isIndexingInProgress
                (controller (world (exec host schedule (empty_pool c e)))))
      eqn:Hflag; [| done].
    destruct (flag_invariant_up _ Hinv Hflag) as (tid & s & Hs & Hrunning).
    rewrite forallb_forall in Hall.
    apply list_elem_of_lookup_2, list_elem_of_In, Hall in Hs. congruence.
Qed.

Lemma buildIndex_flag_released_witness :
  map uri_fsPath (default [] folders_b_a) <> []
  /\ _isIndexingInProgress
       (controller (fst (build_alone scripted 0 folders_b_a config250 busy
                           collect_fails))) = false
  /\ flags_at_awaits 0
       (journal (fst (build_alone scripted 0 folders_b_a config250 fresh quiet)))
     = [true; true; true; false]
  /\ _isIndexingInProgress fresh = false
  /\ Forall (fun p => exists folders cfg, p = buildIndex folders cfg)
       (invocations two_builds)
  /\ forallb is_finished
       (tasks (exec scripted two_builds (empty_pool fresh quiet))) = true
  /\ _isIndexingInProgress
       (controller (world (exec scripted two_builds (empty_pool fresh quiet))))
     = false.
Proof.
  assert (Forall (fun p => exists folders cfg, p = buildIndex folders cfg)
            (invocations two_builds)) as Hbuilds.
  { repeat constructor; by exists folders_b_a, config250. }
  destruct (buildIndex_flag_released scripted) as [Halone Hpool].
  split; [discriminate |].
  split.
  { apply (Halone 0%nat folders_b_a config250 busy collect_fails).
    discriminate. }
  split; [reflexivity |]. split; [reflexivity |]. split; [exact Hbuilds |].
  split; [reflexivity |].
  apply (Hpool two_builds fresh quiet eq_refl Hbuilds). reflexivity.
Defined.

(** X11.  Whatever the interleaving of any number of [buildIndex]
    invocations on a controller that starts with the flag down, and however
    the collaborators settle: whenever the flag reads [true] some
    invocation has not completed yet; so once every invocation has
    completed the flag is down. *)
Theorem buildIndex_flag_never_stuck
    {Env} (host : Host LspE Env) schedule c (e : Env) :
  _isIndexingInProgress c = false ->
  Forall (fun p => exists folders cfg, p = buildIndex folders cfg)
    (invocations schedule) ->
  (_isIndexingInProgress
     (controller (world (exec host schedule (empty_pool c e)))) = true ->
   exists tid s,
     tasks (exec host schedule (empty_pool c e)) !! tid = Some s
     /\ is_finished s = false)
  /\ (forallb is_finished (tasks (exec host schedule (empty_pool c e))) = true ->
      _isIndexingInProgress
        (controller (world (exec host schedule (empty_pool c e)))) = false).
Proof.
  intros Hdown Hbuilds.
  assert (flag_invariant (exec host schedule (empty_pool c e))) as Hinv.
  { apply flag_invariant_exec.
    - exists []. split; [constructor |]. simpl. rewrite Hdown. discriminate.
    - eapply Forall_impl; [exact Hbuilds |].
      intros p (folders & cfg & ->). apply buildIndex_flag_discipline. }
  split; [by apply flag_invariant_up |].
  intros Hall.
  destruct (_isIndexingInProgress
              (controller (world (exec host schedule (empty_pool c e)))))
    eqn:Hflag; [| done].
  destruct (flag_invariant_up _ Hinv Hflag) as (tid & s & Hs & Hrunning).
  rewrite forallb_forall in Hall.
  apply list_elem_of_lookup_2, list_elem_of_In, Hall in Hs. congruence.
Qed.

Lemma buildIndex_flag_never_stuck_witness :
  _isIndexingInProgress fresh = false
  /\ Forall (fun p => exists folders cfg, p = buildIndex folders cfg)
       (invocations first_build_overtakes)
  /\ forallb is_finished
       (tasks (exec scripted first_build_overtakes (empty_pool fresh quiet)))
     = true
  /\ _isIndexingInProgress
       (controller (world (exec scripted first_build_overtakes
                             (empty_pool fresh quiet)))) = false.
Proof.
  assert (Forall (fun p => exists folders cfg, p = buildIndex folders cfg)
            (invocations first_build_overtakes)) as Hbuilds.
  { repeat constructor; by exists folders_b_a, config250. }
  split; [reflexivity |]. split; [exact Hbuilds |]. split; [reflexivity |].
  apply (buildIndex_flag_never_stuck scripted first_build_overtakes fresh quiet
           eq_refl Hbuilds).
  reflexivity.
Defined.

(** ** isLspInstalled and more on cleanup *)

(** X12.  [isLspInstalled] stops at the first missing artifact: when the
    server path does not exist the answer is false and the node path is
    not asked for at all. *)
Theorem isLspInstalled_short_circuit
    {Env} (host : Host FsE Env) tid c (e e' : Env) :
  settle host (FsExists (serverPath c)) e = (e', Fulfilled false) ->
  run host tid isLspInstalled (idle c e)
  = ({| controller := c;
        journal :=
          [ (tid, Awaiting (_isIndexingInProgress c) (FsExists (serverPath c))) ];
        env := e' |},
     Fulfilled false).
Proof. intros Hs. unfold isLspInstalled. simpl. by rewrite Hs. Qed.

Lemma isLspInstalled_short_circuit_witness :
  settle disk_host (FsExists (serverPath fresh)) {[ "/ext/resources/node" ]}
  = ({[ "/ext/resources/node" ]}, Fulfilled false)
  /\ snd (run disk_host 0 isLspInstalled (idle fresh {[ "/ext/resources/node" ]}))
     = Fulfilled false
  /\ fs_calls (journal (fst (run disk_host 0 isLspInstalled
                               (idle fresh {[ "/ext/resources/node" ]}))))
     = [AskedExists "/ext/resources/qserver"].
Proof.
  assert (settle disk_host (FsExists (serverPath fresh))
            {[ "/ext/resources/node" ]}
          = ({[ "/ext/resources/node" ]}, Fulfilled false)) as Habsent
    by (by vm_compute).
  split; [exact Habsent |].
  rewrite (isLspInstalled_short_circuit disk_host 0 fresh
             {[ "/ext/resources/node" ]} {[ "/ext/resources/node" ]} Habsent).
  split; reflexivity.
Defined.

Lemma run_isLspInstalled_disk tid c (disk : gset string) :
  snd (run disk_host tid isLspInstalled (idle c disk))
  = Fulfilled (bool_decide (serverPath c ∈ disk /\ nodePath c ∈ disk))
  /\ env (fst (run disk_host tid isLspInstalled (idle c disk))) = disk.
Proof.
  unfold isLspInstalled. simpl.
  destruct (decide (serverPath c ∈ disk)) as [Hs | Hs].
  - rewrite (bool_decide_eq_true_2 _ Hs). simpl.
    destruct (decide (nodePath c ∈ disk)) as [Hn | Hn].
    + rewrite (bool_decide_eq_true_2 _ Hn). simpl.
      by rewrite bool_decide_eq_true_2.
    + rewrite (bool_decide_eq_false_2 _ Hn). simpl.
      rewrite bool_decide_eq_false_2; [done | by intros [_ ?]].
  - rewrite (bool_decide_eq_false_2 _ Hs). simpl.
    rewrite bool_decide_eq_false_2; [done | by intros [? _]].
Qed.

(** X13.  Over the file system, [isLspInstalled] answers true exactly
    when both the server path and the node path are on disk, and it leaves
    the disk as it found it. *)
Theorem isLspInstalled_both_present tid c (disk : gset string) :
  snd (run disk_host tid isLspInstalled (idle c disk))
  = Fulfilled (bool_decide (serverPath c ∈ disk /\ nodePath c ∈ disk))
  /\ env (fst (run disk_host tid isLspInstalled (idle c disk))) = disk.
Proof. apply run_isLspInstalled_disk. Qed.

(** X14.  Right after [cleanup], [isLspInstalled] answers false, whatever
    was on disk before. *)
Theorem cleanup_then_not_installed tid c (disk : gset string) :
  snd (run disk_host tid isLspInstalled (idle c (after_cleanup tid c disk)))
  = Fulfilled false.
Proof.
  destruct (cleanup_removes tid c disk) as (_ & Hserver & _).
  destruct (run_isLspInstalled_disk tid c (after_cleanup tid c disk))
    as [-> _].
  rewrite bool_decide_eq_false_2; [done | by intros [? _]].
Qed.

(** X15.  [cleanup] removes nothing but the server path, what lies
    beneath it, and the node path: every other path on disk stays; and it
    creates nothing. *)
Theorem cleanup_keeps_the_rest tid c (disk : gset string) path :
  (path ∈ disk ->
   beneath (serverPath c) path = false ->
   path <> nodePath c ->
   path ∈ after_cleanup tid c disk)
  /\ (path ∈ after_cleanup tid c disk -> path ∈ disk).
Proof.
  unfold after_cleanup, cleanup_alone, cleanup. simpl.
  destruct (bool_decide (serverPath c ∈ disk)) eqn:Hserver; simpl.
  - destruct (bool_decide (nodePath c ∈ removeFolder (serverPath c) disk))
      eqn:Hnode; simpl; rewrite ?Hnode; simpl.
    + split.
      * intros Hin Hout Hne. apply elem_of_difference. split.
        -- by apply elem_of_filter.
        -- by rewrite elem_of_singleton.
      * intros [Hin _]%elem_of_difference.
        by apply (removeFolder_subseteq (serverPath c)).
    + split.
      * intros Hin Hout _. by apply elem_of_filter.
      * apply removeFolder_subseteq.
  - destruct (bool_decide (nodePath c ∈ disk)) eqn:Hnode; simpl;
      rewrite ?Hnode; simpl.
    + split.
      * intros Hin _ Hne. apply elem_of_difference. split; [done |].
        by rewrite elem_of_singleton.
      * by intros [Hin _]%elem_of_difference.
    + done.
Qed.

Lemma cleanup_keeps_the_rest_witness :
  ("/ext/package.json" ∈ installed_disk)
  /\ beneath (serverPath fresh) "/ext/package.json" = false
  /\ "/ext/package.json" <> nodePath fresh
  /\ ("/ext/package.json" ∈ after_cleanup 0 fresh installed_disk).
Proof.
  assert ("/ext/package.json" ∈ installed_disk) as Hin.
  { unfold installed_disk. rewrite !elem_of_union, !elem_of_singleton. tauto. }
  split; [exact Hin |]. split; [reflexivity |]. split; [discriminate |].
  destruct (cleanup_keeps_the_rest 0 fresh installed_disk "/ext/package.json")
    as [Hkeep _].
  apply Hkeep; [exact Hin | reflexivity | discriminate].
Defined.

(** X16.  Whatever the file system answers, [cleanup] asks in a fixed
    order and guards each removal: it asks whether the server path exists
    and asks for its removal exactly when the answer was true; then it asks
    whether the node path exists and asks for its deletion exactly when the
    answer was true; a rejected call ends the sequence.  And it never
    fulfils with false. *)
Theorem cleanup_call_discipline
    {Env} (host : Host FsE Env) tid c (e : Env) :
  fs_calls (journal (fst (run host tid cleanup (idle c e))))
  = cleanup_calls_guarded host c e
  /\ snd (run host tid cleanup (idle c e)) <> Fulfilled false.
Proof.
  unfold cleanup_calls_guarded, node_calls_guarded, cleanup. simpl.
  destruct (settle host (FsExists (serverPath c)) e) as [e1 [[|]|err]]; simpl.
  - destruct (settle host (TryRemoveFolder (serverPath c)) e1)
      as [e2 [removed|err]]; simpl; [| done].
    destruct (settle host (FsExists (nodePath c)) e2) as [e3 [[|]|err]];
      simpl; [| done | done].
    by destruct (settle host (FsDelete (nodePath c)) e3) as [e4 [[]|err]].
  - destruct (settle host (FsExists (nodePath c)) e1) as [e3 [[|]|err]];
      simpl; [| done | done].
    by destruct (settle host (FsDelete (nodePath c)) e3) as [e4 [[]|err]].
  - done.
Qed.

(** On a disk that holds the node binary only, [cleanup] asks for no
    removal of the server path and deletes the node binary. *)
Example cleanup_calls_node_only :
  cleanup_calls_guarded disk_host fresh {[ "/ext/resources/node" ]}
  = [ AskedExists "/ext/resources/qserver";
      AskedExists "/ext/resources/node";
      AskedDelete "/ext/resources/node" ].
Proof. by vm_compute. Qed.

(** X17.  [cleanup] does not read what [tryRemoveFolder] answers: when
    the removal of the server path reports false (and the node path is
    absent), [cleanup] still fulfils with true. *)
Theorem cleanup_true_despite_failed_removal
    {Env} (host : Host FsE Env) tid c (e e1 e2 e3 : Env) :
  settle host (FsExists (serverPath c)) e = (e1, Fulfilled true) ->
  settle host (TryRemoveFolder (serverPath c)) e1 = (e2, Fulfilled false) ->
  settle host (FsExists (nodePath c)) e2 = (e3, Fulfilled false) ->
  snd (run host tid cleanup (idle c e)) = Fulfilled true
  /\ env (fst (run host tid cleanup (idle c e))) = e3.
Proof.
  intros Hserver Hremove Hnode. unfold cleanup. simpl.
  rewrite Hserver. simpl. rewrite Hremove. simpl. by rewrite Hnode.
Qed.

(** On a disk that does not let go of the server directory, [cleanup]
    answers true and the directory is still there. *)
Lemma cleanup_true_despite_failed_removal_witness :
  settle stubborn_host (FsExists (serverPath fresh))
    {[ "/ext/resources/qserver" ]}
  = ({[ "/ext/resources/qserver" ]}, Fulfilled true)
  /\ settle stubborn_host (TryRemoveFolder (serverPath fresh))
       {[ "/ext/resources/qserver" ]}
     = ({[ "/ext/resources/qserver" ]}, Fulfilled false)
  /\ snd (run stubborn_host 0 cleanup (idle fresh {[ "/ext/resources/qserver" ]}))
     = Fulfilled true
  /\ env (fst (run stubborn_host 0 cleanup
                 (idle fresh {[ "/ext/resources/qserver" ]})))
     = {[ "/ext/resources/qserver" ]}.
Proof.
  assert (settle stubborn_host (FsExists (serverPath fresh))
            {[ "/ext/resources/qserver" ]}
          = ({[ "/ext/resources/qserver" ]}, Fulfilled true)) as Hserver
    by (by vm_compute).
  assert (settle stubborn_host (FsExists (nodePath fresh))
            {[ "/ext/resources/qserver" ]}
          = ({[ "/ext/resources/qserver" ]}, Fulfilled false)) as Hnode
    by (by vm_compute).
  split; [exact Hserver |]. split; [reflexivity |].
  apply (cleanup_true_despite_failed_removal stubborn_host 0 fresh
           {[ "/ext/resources/qserver" ]} {[ "/ext/resources/qserver" ]}
           {[ "/ext/resources/qserver" ]} {[ "/ext/resources/qserver" ]}
           Hserver eq_refl Hnode).
Defined.

(** ** More on install *)

(** X18.  Once [makeTemporaryToolkitFolder] has fulfilled with a
    (non-empty) folder, the steps of [install] are fixed up to one choice,
    however the later steps settle: the download of [qserver] into the
    server path through the temporary folder; the installation of the
    runtime into the node path, only when the download fulfilled; and, last
    on every path, the removal of the temporary folder. *)
Theorem install_removes_temp_folder
    {Manifest Content Env : Type}
    (getDependency : Manifest -> string -> option Content)
    (join : string -> string -> string) (process : Process)
    (host : Host (FsE +' DownloadE Content) Env)
    tid (manifest : Manifest) c (e e1 : Env) server runtime tempFolder :
  getDependency manifest "qserver" = Some server ->
  getDependency manifest "node" = Some runtime ->
  settle host (inr1 MakeTemporaryToolkitFolder) e = (e1, Fulfilled tempFolder) ->
  tempFolder <> EmptyString ->
  install_steps
    (journal (fst (run host tid (install getDependency join process manifest)
                     (idle c e))))
  = ([ StepMakeTemp; StepDownload "qserver" (serverPath c) tempFolder true ]
     ++ (if is_fulfilled
              (snd (settle host
                      (inr1 (DownloadAndExtractServer
                               {| dl_content := server;
                                  installLocation := serverPath c;
                                  dl_name := "qserver";
                                  dl_tempFolder := tempFolder;
                                  extractToTempFolder := true |})) e1))
         then [ StepInstallRuntime (nodePath c)
                  (join tempFolder (nodeBinName process)) ]
         else [])
     ++ [ StepFs (AskedRemoveFolder tempFolder) ])%list.
Proof.
  intros Hserver Hruntime Hmade Hne. unfold install.
  assert ((tempFolder =? EmptyString) = false) as Hblank
    by (by apply String.eqb_neq).
  rewrite Hserver, Hruntime. simpl. rewrite Hmade. simpl. rewrite ?Hblank.
  repeat settle_next; rewrite ?Hblank; simpl; repeat settle_next; done.
Qed.

Lemma install_removes_temp_folder_witness :
  resolveDependency linux manifest_complete "qserver"
  = Some {| entryName := "qserver"; entryVersion := "0.1.32";
            entryPlatform := "linux"; entryArch := "x64";
            entryUrl := "https://example.invalid/qserver-linux-x64.zip" |}
  /\ settle (installer_host (Content := ManifestEntry))
       (inr1 MakeTemporaryToolkitFolder) ∅
     = ({[ scratch ]} ∪ ∅, Fulfilled scratch)
  /\ scratch <> EmptyString
  /\ install_steps
       (journal (fst (run installer_host 0
                        (install (resolveDependency linux) join_segments linux
                           manifest_complete)
                        (idle fresh ∅))))
     = [ StepMakeTemp;
         StepDownload "qserver" "/ext/resources/qserver" scratch true;
         StepInstallRuntime "/ext/resources/node"
           "/tmp/aws-toolkit-vscode/vsctk0/node";
         StepFs (AskedRemoveFolder scratch) ].
Proof.
  split; [reflexivity |]. split; [reflexivity |]. split; [discriminate |].
  rewrite (install_removes_temp_folder (resolveDependency linux) join_segments
             linux installer_host 0 manifest_complete fresh ∅
             ({[ scratch ]} ∪ ∅) _ _ scratch eq_refl eq_refl eq_refl
             ltac:(discriminate)).
  reflexivity.
Defined.

(** X19.  When the download of the server rejects, [install] does not
    install the runtime; it removes the temporary folder and then rejects
    to its caller with the error of the download. *)
Theorem install_download_rejects
    {Manifest Content Env : Type}
    (getDependency : Manifest -> string -> option Content)
    (join : string -> string -> string) (process : Process)
    (host : Host (FsE +' DownloadE Content) Env)
    tid (manifest : Manifest) c (e e1 e2 e3 : Env)
    server runtime tempFolder error removed :
  getDependency manifest "qserver" = Some server ->
  getDependency manifest "node" = Some runtime ->
  settle host (inr1 MakeTemporaryToolkitFolder) e = (e1, Fulfilled tempFolder) ->
  tempFolder <> EmptyString ->
  settle host
    (inr1 (DownloadAndExtractServer
             {| dl_content := server;
                installLocation := serverPath c;
                dl_name := "qserver";
                dl_tempFolder := tempFolder;
                extractToTempFolder := true |})) e1
  = (e2, Rejected error) ->
  settle host (inl1 (TryRemoveFolder tempFolder)) e2 = (e3, Fulfilled removed) ->
  snd (run host tid (install getDependency join process manifest) (idle c e))
  = Rejected error
  /\ env (fst (run host tid (install getDependency join process manifest)
                 (idle c e))) = e3
  /\ install_steps
       (journal (fst (run host tid (install getDependency join process manifest)
                        (idle c e))))
     = [ StepMakeTemp; StepDownload "qserver" (serverPath c) tempFolder true;
         StepFs (AskedRemoveFolder tempFolder) ].
Proof.
  intros Hserver Hruntime Hmade Hne Hdownload Hremove. unfold install.
  assert ((tempFolder =? EmptyString) = false) as Hblank
    by (by apply String.eqb_neq).
  rewrite Hserver, Hruntime. simpl. rewrite Hmade. simpl. rewrite ?Hblank.
  simpl. rewrite Hdownload. simpl. rewrite ?Hblank. simpl.
  rewrite Hremove. done.
Qed.

Lemma install_download_rejects_witness :
  resolveDependency linux manifest_complete "qserver"
  = Some {| entryName := "qserver"; entryVersion := "0.1.32";
            entryPlatform := "linux"; entryArch := "x64";
            entryUrl := "https://example.invalid/qserver-linux-x64.zip" |}
  /\ scratch <> EmptyString
  /\ snd (run (faulty_installer_host (Fulfilled scratch) (Rejected network_down))
            0
            (install (resolveDependency linux) join_segments linux
               manifest_complete)
            (idle fresh ∅))
     = Rejected network_down
  /\ install_steps
       (journal
          (fst (run (faulty_installer_host (Fulfilled scratch)
                       (Rejected network_down)) 0
                  (install (resolveDependency linux) join_segments linux
                     manifest_complete)
                  (idle fresh ∅))))
     = [ StepMakeTemp;
         StepDownload "qserver" "/ext/resources/qserver" scratch true;
         StepFs (AskedRemoveFolder scratch) ].
Proof.
  split; [reflexivity |]. split; [discriminate |].
  destruct (install_download_rejects (resolveDependency linux) join_segments
              linux
              (faulty_installer_host (Fulfilled scratch) (Rejected network_down))
              0 manifest_complete fresh ∅ ({[ scratch ]} ∪ ∅)
              ({[ scratch ]} ∪ ∅) (removeFolder scratch ({[ scratch ]} ∪ ∅))
              _ _ scratch network_down true
              eq_refl eq_refl eq_refl ltac:(discriminate) eq_refl eq_refl)
    as (Hresult & _ & Hsteps).
  split; assumption.
Defined.

(** X20.  When [makeTemporaryToolkitFolder] rejects, [install] rejects
    with that error having done nothing else: no download, no runtime
    installation, and no removal, there being no folder to remove. *)
Theorem install_no_temp_folder
    {Manifest Content Env : Type}
    (getDependency : Manifest -> string -> option Content)
    (join : string -> string -> string) (process : Process)
    (host : Host (FsE +' DownloadE Content) Env)
    tid (manifest : Manifest) c (e e1 : Env) server runtime error :
  getDependency manifest "qserver" = Some server ->
  getDependency manifest "node" = Some runtime ->
  settle host (inr1 MakeTemporaryToolkitFolder) e = (e1, Rejected error) ->
  snd (run host tid (install getDependency join process manifest) (idle c e))
  = Rejected error
  /\ env (fst (run host tid (install getDependency join process manifest)
                 (idle c e))) = e1
  /\ install_steps
       (journal (fst (run host tid (install getDependency join process manifest)
                        (idle c e))))
     = [ StepMakeTemp ].
Proof.
  intros Hserver Hruntime Hmade. unfold install.
  rewrite Hserver, Hruntime. simpl. by rewrite Hmade.
Qed.

Lemma install_no_temp_folder_witness :
  resolveDependency linux manifest_complete "node"
  = Some {| entryName := "node"; entryVersion := "0.1.32";
            entryPlatform := "linux"; entryArch := "x64";
            entryUrl := "https://example.invalid/node-linux-x64" |}
  /\ settle (faulty_installer_host (Content := ManifestEntry)
               (Rejected disk_full) (Fulfilled tt))
       (inr1 MakeTemporaryToolkitFolder) ∅
     = (∅, Rejected disk_full)
  /\ snd (run (faulty_installer_host (Rejected disk_full) (Fulfilled tt)) 0
            (install (resolveDependency linux) join_segments linux
               manifest_complete)
            (idle fresh ∅))
     = Rejected disk_full
  /\ install_steps
       (journal
          (fst (run (faulty_installer_host (Rejected disk_full) (Fulfilled tt))
                  0
                  (install (resolveDependency linux) join_segments linux
                     manifest_complete)
                  (idle fresh ∅))))
     = [ StepMakeTemp ].
Proof.
  split; [reflexivity |]. split; [reflexivity |].
  destruct (install_no_temp_folder (resolveDependency linux) join_segments
              linux
              (faulty_installer_host (Rejected disk_full) (Fulfilled tt))
              0 manifest_complete fresh ∅ ∅ _ _ disk_full
              eq_refl eq_refl eq_refl)
    as (Hresult & _ & Hsteps).
  split; assumption.
Defined.

(** X21.  When the download and the installation of the runtime fulfil,
    [install] fulfils with true whatever [tryRemoveFolder] answers about
    the temporary folder: its answer is not read. *)
Theorem install_succeeds
    {Manifest Content Env : Type}
    (getDependency : Manifest -> string -> option Content)
    (join : string -> string -> string) (process : Process)
    (host : Host (FsE +' DownloadE Content) Env)
    tid (manifest : Manifest) c (e e1 e2 e3 e4 : Env)
    server runtime tempFolder removed :
  getDependency manifest "qserver" = Some server ->
  getDependency manifest "node" = Some runtime ->
  settle host (inr1 MakeTemporaryToolkitFolder) e = (e1, Fulfilled tempFolder) ->
  tempFolder <> EmptyString ->
  settle host
    (inr1 (DownloadAndExtractServer
             {| dl_content := server;
                installLocation := serverPath c;
                dl_name := "qserver";
                dl_tempFolder := tempFolder;
                extractToTempFolder := true |})) e1
  = (e2, Fulfilled tt) ->
  settle host
    (inr1 (InstallRuntime runtime (nodePath c)
             (join tempFolder (nodeBinName process)))) e2
  = (e3, Fulfilled tt) ->
  settle host (inl1 (TryRemoveFolder tempFolder)) e3 = (e4, Fulfilled removed) ->
  snd (run host tid (install getDependency join process manifest) (idle c e))
  = Fulfilled true
  /\ env (fst (run host tid (install getDependency join process manifest)
                 (idle c e))) = e4.
Proof.
  intros Hserver Hruntime Hmade Hne Hdownload Hinstall Hremove. unfold install.
  assert ((tempFolder =? EmptyString) = false) as Hblank
    by (by apply String.eqb_neq).
  rewrite Hserver, Hruntime. simpl. rewrite Hmade. simpl. rewrite ?Hblank.
  simpl. rewrite Hdownload. simpl. rewrite Hinstall. simpl.
  rewrite ?Hblank. simpl. rewrite Hremove. done.
Qed.

Lemma install_succeeds_witness :
  resolveDependency linux manifest_complete "qserver"
  = Some {| entryName := "qserver"; entryVersion := "0.1.32";
            entryPlatform := "linux"; entryArch := "x64";
            entryUrl := "https://example.invalid/qserver-linux-x64.zip" |}
  /\ scratch <> EmptyString
  /\ snd (run installer_host 0
            (install (resolveDependency linux) join_segments linux
               manifest_complete)
            (idle fresh ∅))
     = Fulfilled true.
Proof.
  split; [reflexivity |]. split; [discriminate |].
  destruct (install_succeeds (resolveDependency linux) join_segments linux
              installer_host 0 manifest_complete fresh ∅
              ({[ scratch ]} ∪ ∅)
              ({[ "/ext/resources/qserver" ]} ∪ ({[ scratch ]} ∪ ∅))
              ({[ "/ext/resources/node" ]}
               ∪ ({[ "/ext/resources/qserver" ]} ∪ ({[ scratch ]} ∪ ∅)))
              (removeFolder scratch
                 ({[ "/ext/resources/node" ]}
                  ∪ ({[ "/ext/resources/qserver" ]} ∪ ({[ scratch ]} ∪ ∅))))
              _ _ scratch true
              eq_refl eq_refl eq_refl ltac:(discriminate)
              eq_refl eq_refl eq_refl)
    as (Hresult & _).
  exact Hresult.
Defined.

(** ** fetchConnections *)

Lemma fold_pushed_connection amazonQScopes listed connections :
  fold_left
    (fun connections connection =>
       (connections
        ++ [AmazonQLoginWebview.pushed_connection amazonQScopes connection])%list)
    listed connections
  = (connections
     ++ map (AmazonQLoginWebview.pushed_connection amazonQScopes) listed)%list.
Proof.
  revert connections.
  induction listed as [|connection listed IH]; intros connections; simpl.
  - by rewrite app_nil_r.
  - rewrite IH. by rewrite <- app_assoc.
Qed.

Lemma run_fetchConnections
    {Env} (host : Host AmazonQLoginWebview.ToolkitE Env) tid amazonQScopes api
    (w : World AmazonQLoginWebview.ToolkitE Env) e' listed :
  settle host (AmazonQLoginWebview.ListConnections api) (env w)
  = (e', Fulfilled (Some listed)) ->
  snd (run host tid
         (AmazonQLoginWebview.fetchConnections amazonQScopes
            (Some {| AmazonQLoginWebview.exports := Some api |})) w)
  = Fulfilled (map (AmazonQLoginWebview.pushed_connection amazonQScopes) listed).
Proof.
  intros Hs. unfold AmazonQLoginWebview.fetchConnections. simpl.
  rewrite Hs. simpl. by rewrite fold_pushed_connection.
Qed.

(** X22.  [fetchConnections] returns one connection per connection the
    toolkit lists, in the same order, with the same id, label, region,
    type, start URL and token source.  A connection that already has the
    scope [codewhisperer:completions] is handed through as it is; any
    other one gets exactly the Amazon Q scopes in place of its own. *)
Theorem fetchConnections_keeps_identity
    {Env} (host : Host AmazonQLoginWebview.ToolkitE Env) tid amazonQScopes api
    (w : World AmazonQLoginWebview.ToolkitE Env) e' listed i connection :
  settle host (AmazonQLoginWebview.ListConnections api) (env w)
  = (e', Fulfilled (Some listed)) ->
  listed !! i = Some connection ->
  exists connections returned,
    snd (run host tid
           (AmazonQLoginWebview.fetchConnections amazonQScopes
              (Some {| AmazonQLoginWebview.exports := Some api |})) w)
    = Fulfilled connections
    /\ length connections = length listed
    /\ connections !! i = Some returned
    /\ AmazonQLoginWebview.id returned = AmazonQLoginWebview.id connection
    /\ AmazonQLoginWebview.label returned = AmazonQLoginWebview.label connection
    /\ AmazonQLoginWebview.ssoRegion returned
       = AmazonQLoginWebview.ssoRegion connection
    /\ AmazonQLoginWebview.type returned = AmazonQLoginWebview.type connection
    /\ AmazonQLoginWebview.startUrl returned
       = AmazonQLoginWebview.startUrl connection
    /\ (forall u, AmazonQLoginWebview.getToken returned u
                  = AmazonQLoginWebview.getToken connection u)
    /\ (AmazonQLoginWebview.includes_completions connection = true ->
        returned = connection)
    /\ (AmazonQLoginWebview.includes_completions connection = false ->
        AmazonQLoginWebview.scopes returned = Some amazonQScopes).
Proof.
  intros Hs Hi.
  exists (map (AmazonQLoginWebview.pushed_connection amazonQScopes) listed),
    (AmazonQLoginWebview.pushed_connection amazonQScopes connection).
  split; [by apply run_fetchConnections with (e' := e') |].
  split; [apply length_map |].
  split.
  { change (map ?f listed) with (f <$> listed).
    by rewrite list_lookup_fmap, Hi. }
  unfold AmazonQLoginWebview.pushed_connection.
  destruct (AmazonQLoginWebview.includes_completions connection); simpl;
    repeat split; try done.
  by intros [].
Qed.

Lemma fetchConnections_keeps_identity_witness :
  settle (AmazonQLoginWebview.toolkit_host
            (Fulfilled (Some [builder_id; explorer_only])))
    (AmazonQLoginWebview.ListConnections AmazonQLoginWebview.toolkit_api) tt
  = (tt, Fulfilled (Some [builder_id; explorer_only]))
  /\ [builder_id; explorer_only] !! 1%nat = Some explorer_only
  /\ exists connections returned,
       snd (run (AmazonQLoginWebview.toolkit_host
                   (Fulfilled (Some [builder_id; explorer_only]))) 0
              (AmazonQLoginWebview.fetchConnections sample_amazonQScopes
                 toolkit_installed)
              (idle fresh tt))
       = Fulfilled connections
       /\ connections !! 1%nat = Some returned
       /\ AmazonQLoginWebview.id returned = "idc"
       /\ AmazonQLoginWebview.scopes returned = Some sample_amazonQScopes.
Proof.
  do 2 (split; [reflexivity |]).
  destruct (fetchConnections_keeps_identity
              (AmazonQLoginWebview.toolkit_host
                 (Fulfilled (Some [builder_id; explorer_only])))
              0 sample_amazonQScopes AmazonQLoginWebview.toolkit_api
              (idle fresh tt) tt [builder_id; explorer_only] 1 explorer_only
              eq_refl eq_refl)
    as (connections & returned & Hrun & _ & Hi & Hid & _ & _ & _ & _ & _ & _
        & Hscopes).
  exists connections, returned. repeat split; [done.. | |].
  - by rewrite Hid.
  - by apply Hscopes.
Defined.

(** X23.  Provided the Amazon Q scopes contain [codewhisperer:completions],
    every connection [fetchConnections] returns has that scope. *)
Theorem fetchConnections_all_have_completions
    {Env} (host : Host AmazonQLoginWebview.ToolkitE Env) tid amazonQScopes api
    (w : World AmazonQLoginWebview.ToolkitE Env) e' listed :
  In "codewhisperer:completions" amazonQScopes ->
  settle host (AmazonQLoginWebview.ListConnections api) (env w)
  = (e', Fulfilled (Some listed)) ->
  exists connections,
    snd (run host tid
           (AmazonQLoginWebview.fetchConnections amazonQScopes
              (Some {| AmazonQLoginWebview.exports := Some api |})) w)
    = Fulfilled connections
    /\ Forall (fun returned =>
                 AmazonQLoginWebview.includes_completions returned = true)
         connections.
Proof.
  intros Hin Hs.
  exists (map (AmazonQLoginWebview.pushed_connection amazonQScopes) listed).
  split; [by apply run_fetchConnections with (e' := e') |].
  apply Forall_forall. intros returned Hret.
  apply list_elem_of_In, in_map_iff in Hret as (connection & <- & _).
  unfold AmazonQLoginWebview.pushed_connection.
  destruct (AmazonQLoginWebview.includes_completions connection) eqn:Hhas;
    [done |].
  unfold AmazonQLoginWebview.includes_completions. simpl.
  apply existsb_exists. exists "codewhisperer:completions".
  by split.
Qed.

Lemma fetchConnections_all_have_completions_witness :
  In "codewhisperer:completions" sample_amazonQScopes
  /\ exists connections,
       snd (run (AmazonQLoginWebview.toolkit_host
                   (Fulfilled (Some [builder_id; explorer_only]))) 0
              (AmazonQLoginWebview.fetchConnections sample_amazonQScopes
                 toolkit_installed)
              (idle fresh tt))
       = Fulfilled connections
       /\ Forall (fun returned =>
                    AmazonQLoginWebview.includes_completions returned = true)
            connections.
Proof.
  split; [by left |].
  apply (fetchConnections_all_have_completions
           (AmazonQLoginWebview.toolkit_host
              (Fulfilled (Some [builder_id; explorer_only])))
           0 sample_amazonQScopes AmazonQLoginWebview.toolkit_api
           (idle fresh tt) tt [builder_id; explorer_only]);
    [by left | reflexivity].
Defined.

(** X24.  When the toolkit extension is not installed, or exports
    nothing, [fetchConnections] does not return [undefined] or an empty
    list: [toolkitConnections.forEach] is read off [undefined] and the
    method rejects with a [TypeError], having asked no one for connections. *)
Theorem fetchConnections_without_toolkit
    {Env} (host : Host AmazonQLoginWebview.ToolkitE Env) tid amazonQScopes
    toolkitExt c (e e' : Env) :
  toolkitExt ≫= AmazonQLoginWebview.exports = None ->
  settle host AmazonQLoginWebview.NotAPromise e = (e', Fulfilled tt) ->
  run host tid (AmazonQLoginWebview.fetchConnections amazonQScopes toolkitExt)
    (idle c e)
  = ({| controller := c;
        journal :=
          [ (tid, Awaiting (_isIndexingInProgress c)
                    AmazonQLoginWebview.NotAPromise) ];
        env := e' |},
     Rejected (AmazonQLoginWebview.TypeError_undefined "forEach")).
Proof.
  intros Hnone Hs. unfold AmazonQLoginWebview.fetchConnections.
  rewrite Hnone. simpl. by rewrite Hs.
Qed.

Lemma fetchConnections_without_toolkit_witness :
  (None : option AmazonQLoginWebview.Extension) ≫= AmazonQLoginWebview.exports
  = None
  /\ settle (AmazonQLoginWebview.toolkit_host (Fulfilled (Some [builder_id])))
       AmazonQLoginWebview.NotAPromise tt
     = (tt, Fulfilled tt)
  /\ snd (run (AmazonQLoginWebview.toolkit_host (Fulfilled (Some [builder_id])))
            0 (AmazonQLoginWebview.fetchConnections sample_amazonQScopes None)
            (idle fresh tt))
     = Rejected
         (ErrorObj "TypeError"
            "Cannot read properties of undefined (reading 'forEach')").
Proof.
  do 2 (split; [reflexivity |]).
  rewrite (fetchConnections_without_toolkit
             (AmazonQLoginWebview.toolkit_host (Fulfilled (Some [builder_id])))
             0 sample_amazonQScopes None fresh tt tt eq_refl eq_refl).
  reflexivity.
Defined.

(** ** listStacks *)

Import DefaultCloudFormationClient.

Lemma drain_yield_star {Y Env} (host : Host CfnE Env) (ys : list Y) k e :
  drain host (yield_star ys k) e
  = {| yielded := (ys ++ yielded (drain host k e))%list;
       requested := requested (drain host k e);
       completion := completion (drain host k e);
       left := left (drain host k e) |}.
Proof.
  induction ys as [|y ys IH]; simpl.
  - by destruct (drain host k e).
  - by rewrite IH.
Qed.

Lemma drain_loop_pages {Env} (host : Host CfnE Env) client e token pages e' :
  pages_of host client e token pages e' ->
  forall fuel,
    (length pages <= fuel)%nat ->
    drain host (listStacks_loop fuel client (page_request token)) e
    = {| yielded := concat (map summaries_of pages);
         requested := requests_for token pages;
         completion := Returned;
         left := e' |}.
Proof.
  induction 1 as [e token page e' Hpage Hlast
                 |e token page e' pages e'' Hpage Hnext Hrest IH];
    intros [|fuel] Hfuel; simpl in Hfuel; try lia; simpl; rewrite Hpage.
  - simpl. rewrite Hlast. unfold summaries_of.
    destruct (StackSummaries page) as [summaries|]; simpl.
    + rewrite drain_yield_star. simpl. by rewrite !app_nil_r.
    + done.
  - simpl. rewrite Hnext. fold (page_request (response_NextToken page)).
    unfold summaries_of at 1.
    destruct (StackSummaries page) as [summaries|]; simpl.
    + rewrite drain_yield_star. rewrite IH by lia. done.
    + rewrite IH by lia. done.
Qed.

Lemma drain_loop_error {Env} (host : Host CfnE Env) client e token pages
    error e' :
  pages_until_error host client e token pages error e' ->
  forall fuel,
    (length pages < fuel)%nat ->
    yielded (drain host (listStacks_loop fuel client (page_request token)) e)
    = concat (map summaries_of pages)
    /\ length (requested
                 (drain host (listStacks_loop fuel client (page_request token)) e))
       = S (length pages)
    /\ completion
         (drain host (listStacks_loop fuel client (page_request token)) e)
       = Threw error
    /\ left (drain host (listStacks_loop fuel client (page_request token)) e)
       = e'.
Proof.
  induction 1 as [e token error e' Hpage
                 |e token page e' pages error e'' Hpage Hnext Hrest IH];
    intros [|fuel] Hfuel; simpl in Hfuel; try lia; simpl; rewrite Hpage.
  - done.
  - simpl. rewrite Hnext. fold (page_request (response_NextToken page)).
    destruct (IH fuel ltac:(lia)) as (Hy & Hr & Hc & Hl).
    unfold summaries_of at 1.
    destruct (StackSummaries page) as [summaries|]; simpl.
    + rewrite drain_yield_star. simpl. rewrite Hy, Hr, Hc, Hl. done.
    + rewrite Hy, Hr, Hc, Hl. done.
Qed.

(** X25.  When the service answers a finite run of pages, each but the
    last naming the next by a non-empty token, a consumer that iterates
    [listStacks] to the end receives the stack summaries of all the pages,
    in order (a page without summaries contributes none), and the generator
    returns.  One request is sent per page: the first without a token, each
    later one with the token of the page before, all with the same status
    filter.  Unrolling the loop once per page is enough. *)
Theorem listStacks_pagination
    {Env} (host : Host CfnE Env) regionCode (e e0 e' : Env) client pages fuel :
  settle host (CreateAndConfigureServiceClient regionCode) e
  = (e0, Fulfilled client) ->
  pages_of host client e0 None pages e' ->
  (length pages <= fuel)%nat ->
  drain host (listStacks fuel regionCode) e
  = {| yielded := concat (map summaries_of pages);
       requested := requests_for None pages;
       completion := Returned;
       left := e' |}.
Proof.
  intros Hclient Hpages Hfuel. unfold listStacks. simpl. rewrite Hclient.
  fold (page_request None).
  by rewrite (drain_loop_pages host client e0 None pages e' Hpages fuel Hfuel).
Qed.

(** Three pages, the second without summaries, the third naming an empty
    token, which ends the listing. *)
Lemma listStacks_pagination_witness :
  settle (paged_host three_pages) (CreateAndConfigureServiceClient "us-west-2") tt
  = (tt, Fulfilled {| handle := 1 |})
  /\ pages_of (paged_host three_pages) {| handle := 1 |} tt None
       [first_page; second_page; third_page] tt
  /\ (length [first_page; second_page; third_page] <= 3)%nat
  /\ yielded (drain (paged_host three_pages) (listStacks 3 "us-west-2") tt)
     = [stack "a"; stack "b"; stack "c"]
  /\ map NextToken
       (requested (drain (paged_host three_pages) (listStacks 3 "us-west-2") tt))
     = [None; Some "t1"; Some "t2"]
  /\ completion (drain (paged_host three_pages) (listStacks 3 "us-west-2") tt)
     = Returned.
Proof.
  assert (pages_of (paged_host three_pages) {| handle := 1 |} tt None
            [first_page; second_page; third_page] tt) as Hpages.
  { apply pages_more with (e' := tt); [reflexivity | reflexivity |].
    apply pages_more with (e' := tt); [reflexivity | reflexivity |].
    apply pages_last; reflexivity. }
  split; [reflexivity |]. split; [exact Hpages |]. split; [simpl; lia |].
  rewrite (listStacks_pagination (paged_host three_pages) "us-west-2" tt tt tt
             {| handle := 1 |} [first_page; second_page; third_page] 3
             eq_refl Hpages ltac:(simpl; lia)).
  repeat split.
Defined.

(** X26.  When the service rejects the request for a page, the consumer
    has by then received the summaries of all the pages before it, in
    order; the generator throws the error of the service and sends no
    further request. *)
Theorem listStacks_error_midway
    {Env} (host : Host CfnE Env) regionCode (e e0 e' : Env) client pages
    error fuel :
  settle host (CreateAndConfigureServiceClient regionCode) e
  = (e0, Fulfilled client) ->
  pages_until_error host client e0 None pages error e' ->
  (length pages < fuel)%nat ->
  yielded (drain host (listStacks fuel regionCode) e)
  = concat (map summaries_of pages)
  /\ length (requested (drain host (listStacks fuel regionCode) e))
     = S (length pages)
  /\ completion (drain host (listStacks fuel regionCode) e) = Threw error
  /\ left (drain host (listStacks fuel regionCode) e) = e'.
Proof.
  intros Hclient Hpages Hfuel. unfold listStacks. simpl. rewrite Hclient.
  fold (page_request None). simpl.
  apply (drain_loop_error host client e0 None pages error e' Hpages fuel Hfuel).
Qed.

Lemma listStacks_error_midway_witness :
  settle (paged_host one_page_then_throttled)
    (CreateAndConfigureServiceClient "us-west-2") tt
  = (tt, Fulfilled {| handle := 1 |})
  /\ pages_until_error (paged_host one_page_then_throttled) {| handle := 1 |}
       tt None [first_page] throttled tt
  /\ (length [first_page] < 5)%nat
  /\ yielded (drain (paged_host one_page_then_throttled)
                (listStacks 5 "us-west-2") tt)
     = [stack "a"; stack "b"]
  /\ completion (drain (paged_host one_page_then_throttled)
                   (listStacks 5 "us-west-2") tt)
     = Threw throttled.
Proof.
  assert (pages_until_error (paged_host one_page_then_throttled)
            {| handle := 1 |} tt None [first_page] throttled tt) as Hpages.
  { apply pages_then with (e' := tt); [reflexivity | reflexivity |].
    apply pages_error. reflexivity. }
  split; [reflexivity |]. split; [exact Hpages |]. split; [simpl; lia |].
  destruct (listStacks_error_midway (paged_host one_page_then_throttled)
              "us-west-2" tt tt tt {| handle := 1 |} [first_page] throttled 5
              eq_refl Hpages ltac:(simpl; lia))
    as (Hy & _ & Hc & _).
  rewrite Hy, Hc. split; reflexivity.
Defined.
